(** * chktiles: a quality-assurance scanner for SVG tile files

    A shallow embedding of [chktiles.go].  The repository holds two variants
    of the program: the complete one, which queries a generic XML tree
    (xmlquery) and carries the duplicate detector, and an earlier one, which
    decodes the document into a fixed [Svg] structure.  The first is embedded
    at top level, the second in [Module Decode].

    Layout: the Go library functions the program calls ([strings], [regexp],
    [strconv], [path/filepath], xmlquery) are given executable models first,
    then the program's own functions are translated one by one, then the
    properties are stated and proved. *)

From Stdlib Require Import String Ascii List ZArith Lia Bool.
From Stdlib Require Import Floats.SpecFloat.
Import ListNotations.
Set Warnings "-register-all".
Local Open Scope string_scope.
Local Open Scope list_scope.

(** ** Bytes and strings

    A Go string is a sequence of bytes; [string] over [ascii] (8-bit
    characters) is exactly that. *)

Definition isDigit (c : ascii) : bool :=
  let n := nat_of_ascii c in (48 <=? n)%nat && (n <=? 57)%nat.

Definition isDot (c : ascii) : bool := Ascii.eqb c ".".

Definition isSep (c : ascii) : bool := Ascii.eqb c "/".

Fixpoint filterString (keep : ascii -> bool) (s : string) : string :=
  match s with
  | EmptyString => EmptyString
  | String c t => if keep c then String c (filterString keep t) else filterString keep t
  end.

(** [strings.HasSuffix]:
    [len(s) >= len(suffix) && s[len(s)-len(suffix):] == suffix]. *)
Definition HasSuffix (s suffix : string) : bool :=
  (String.length suffix <=? String.length s)%nat &&
  String.eqb (substring (String.length s - String.length suffix)
                        (String.length suffix) s) suffix.

(** [strings.Split(s, sep)] for a one-byte separator, the only use the
    program makes of it.  The result is never empty: [Split "" sep = [""]]. *)
Fixpoint Split (s : string) (sep : ascii) : list string :=
  match s with
  | EmptyString => [EmptyString]
  | String c t =>
      if Ascii.eqb c sep then EmptyString :: Split t sep
      else match Split t sep with
           | w :: ws => String c w :: ws
           | [] => [String c EmptyString]
           end
  end.

(** [strings.Join(elems, sep)]. *)
Fixpoint Join (elems : list string) (sep : string) : string :=
  match elems with
  | [] => EmptyString
  | [a] => a
  | a :: rest => String.append a (String.append sep (Join rest sep))
  end.

(** [strings.Replace(s, old, "", -1)] for a one-byte [old]: every occurrence
    of the byte is removed. *)
Definition Replace (s : string) (old : ascii) : string :=
  filterString (fun c => negb (Ascii.eqb c old)) s.

(** [regexp.MustCompile(`[^0-9\.]`).ReplaceAllString(s, "")]: every byte that
    is neither a decimal digit nor a dot is deleted (the bytes of a non-ASCII
    rune are all outside the class, so the byte-wise reading is exact). *)
Definition ReplaceAllNonNumeric (s : string) : string :=
  filterString (fun c => isDigit c || isDot c) s.

(** [filepath.Ext]: scan from the end, stop at a separator, return from the
    last dot of the last element on. *)
Fixpoint extScan (rpath : list ascii) (acc : list ascii) : string :=
  match rpath with
  | [] => EmptyString
  | c :: r =>
      if isSep c then EmptyString
      else if isDot c then string_of_list_ascii (c :: acc)
      else extScan r (c :: acc)
  end.

Definition Ext (path : string) : string :=
  extScan (rev (list_ascii_of_string path)) [].

(** [filepath.Base] on a Unix system. *)
Fixpoint dropSeps (rpath : list ascii) : list ascii :=
  match rpath with
  | c :: r => if isSep c then dropSeps r else rpath
  | [] => []
  end.

Fixpoint lastElement (rpath : list ascii) (acc : list ascii) : list ascii :=
  match rpath with
  | c :: r => if isSep c then acc else lastElement r (c :: acc)
  | [] => acc
  end.

Definition Base (path : string) : string :=
  match path with
  | EmptyString => "."
  | _ =>
      match lastElement (dropSeps (rev (list_ascii_of_string path))) [] with
      | [] => "/"
      | l => string_of_list_ascii l
      end
  end.

(** [filepath.Join(dir, name)] as [filepath.Walk] uses it, for a directory
    path and one entry name.  The textual clean-up that [Clean] performs on
    [dir] is left out; it never changes the last path element, which is all
    [Ext] and [Base] look at. *)
Definition PathJoin (dir name : string) : string :=
  String.append dir (String "/" name).

(** ** float64

    IEEE 754 binary64 values, with the Standard Library's executable
    specification of the arithmetic. *)

Definition float64 := spec_float.
Definition prec : Z := 53.
Definition emax : Z := 1024.

(** An exact decimal [mant / 10^scale].  Go's untyped numeric constants are
    exact, and so is the value a decimal literal denotes before it is
    rounded. *)
Record decimal := Dec { mant : Z; scale : nat }.

Definition dint (n : Z) : decimal := Dec n 0.
Definition dmul (a b : decimal) : decimal :=
  Dec (mant a * mant b) (scale a + scale b).

(** Conversion to [float64]: the nearest binary64 value, ties to even. *)
Definition toFloat64 (d : decimal) : float64 :=
  let den := Z.to_pos (10 ^ Z.of_nat (scale d)) in
  match mant d with
  | Z0 => S754_zero false
  | Zpos m => SFdiv prec emax (S754_finite false m 0) (S754_finite false den 0)
  | Zneg m => SFdiv prec emax (S754_finite true m 0) (S754_finite false den 0)
  end.

Definition f64_lt (a b : float64) : bool := SFltb a b.
Definition f64_ne (a b : float64) : bool := negb (SFeqb a b).

(** ** Errors *)

Inductive error :=
| SkipDir
| SkipAll
| ErrSyntax (input : string)
| ErrRange (input : string)
| Failure (msg : string).

(** [strconv.ParseFloat(s, 64)] on the strings [toFloat] hands to it, which
    hold decimal digits and dots only.  The scanner follows [readFloat]: one
    optional dot, at least one digit, nothing left over.  A byte outside the
    alphabet ends the scan with a syntax error.  The result is the value and
    the error, as in Go: [0] with a syntax error, the infinity with a range
    error. *)
Fixpoint readFloat (s : string) (sawdot sawdigits : bool) (m : Z) (frac : nat)
  : option decimal :=
  match s with
  | EmptyString => if sawdigits then Some (Dec m frac) else None
  | String c t =>
      if isDot c then
        if sawdot then None else readFloat t true sawdigits m frac
      else if isDigit c then
        readFloat t sawdot true
                  (10 * m + Z.of_nat (nat_of_ascii c - 48))
                  (if sawdot then S frac else frac)
      else None
  end.

Definition ParseFloat (s : string) : float64 * option error :=
  match readFloat s false false 0 0 with
  | None => (S754_zero false, Some (ErrSyntax s))
  | Some d =>
      match toFloat64 d with
      | S754_infinity sg => (S754_infinity sg, Some (ErrRange s))
      | f => (f, None)
      end
  end.

(** ** Constants of the program *)

Definition pxPerIn : decimal := dint 96.
Definition pxPerMm : decimal := dmul (Dec 39370787 9) pxPerIn.
Definition pxPerPt : decimal := dmul (Dec 138888889 10) pxPerIn.
Definition pxPerPc : decimal := dmul (Dec 1666666667 10) pxPerIn.
Definition pxPerFt : decimal := dmul pxPerIn (dint 12).
Definition pxPerCm : decimal := dmul (Dec 3937007874 10) pxPerIn.
Definition pxPerM : decimal := dmul (Dec 254 4) pxPerIn.

Definition minWidth : decimal := dint 80.
Definition minHeight : decimal := dint 80.

(** ** The report

    Every [fmt.Printf] of the program writes one line.  The lines are kept
    structured: which format was used and with which arguments. *)

Inductive Severity := ERROR | WARNING.

Inductive Message :=
| KeywordsMissing
| WidthTooSmall (w : float64)
| HeightTooSmall (h : float64)
| WidthUnits (w : string)
| HeightUnits (h : string)
| IdentifierMissing
| KeywordsMisspelled (words : string)
| TextMisspelled (words : string)
| DuplicateName (ref : string)
| DuplicateSize (ref : string)
| DuplicateHash (ref : string).

Inductive Fault :=
| UnableConvert (s : string) (e : error)
| SpellerFailed (e : error)
| UnableOpen (path : string) (e : error)
| UnableHash (path : string) (e : error)
| UnableAccess (path : string) (e : error)
| UnableAccessPath (path : string) (e : error)
| UnableWalk (dir : string) (e : error)
| CouldNotParse (e : error).

Inductive Line :=
| Diag (path : string) (sev : Severity) (msg : Message)
    (* "%q\tSEVERITY\tmessage": a diagnostic about a file *)
| OpError (op : string) (f : Fault)
    (* "operation\tERROR\t...": a failure of an operation *)
| PrintSize (path : string) (e : error)
    (* getFileSize reports through fmt.Print *)
| Trace (path : string)
| SvgInfo (w h v : string)
| KeywordsInfo (keywords : string)
| IdentifierInfo (identifier : string)
| TextCounts (path : string) (texts grouped : nat).

(** ** Running a piece of the program

    A computation writes lines and then either returns a value or panics
    (a nil-pointer dereference); what was written before a panic stays
    written. *)

Inductive Res (A : Type) :=
| Val (a : A)
| Panic.
Arguments Val {A} a.
Arguments Panic {A}.

Definition IO (A : Type) : Type := list Line * Res A.

Definition ret {A} (a : A) : IO A := ([], Val a).

Definition bind {A B} (m : IO A) (f : A -> IO B) : IO B :=
  match m with
  | (o, Val a) => let (o', r) := f a in (o ++ o', r)
  | (o, Panic) => (o, Panic)
  end.

Definition print (l : Line) : IO unit := ([l], Val tt).
Definition panic {A} : IO A := ([], Panic).
Definition when (b : bool) (m : IO unit) : IO unit := if b then m else ret tt.

Definition output {A} (m : IO A) : list Line := fst m.
Definition result {A} (m : IO A) : Res A := snd m.

Declare Scope io_scope.
Delimit Scope io_scope with io.
Notation "x <- m ;; k" := (bind m (fun x => k))
  (at level 61, m at next level, right associativity) : io_scope.
Notation "m ;; k" := (bind m (fun _ => k))
  (at level 61, right associativity) : io_scope.
Local Open Scope io_scope.

(** ** Unit converter *)

Definition toFloat (s : string) : IO float64 :=
  match ParseFloat (ReplaceAllNonNumeric s) with
  | (f, Some err) => print (OpError "toFloat" (UnableConvert s err)) ;; ret f
  | (f, None) => ret f
  end.

Definition getUnitConversion (value : string) : float64 :=
  if HasSuffix value "in" then toFloat64 pxPerIn
  else if HasSuffix value "mm" then toFloat64 pxPerMm
  else if HasSuffix value "pt" then toFloat64 pxPerPt
  else if HasSuffix value "pc" then toFloat64 pxPerPc
  else if HasSuffix value "ft" then toFloat64 pxPerFt
  else if HasSuffix value "cm" then toFloat64 pxPerCm
  else if HasSuffix value "m" then toFloat64 pxPerM
  else toFloat64 (dint 1).

(** ** The XML tree (xmlquery)

    [xmlquery.Parse] returns the document node; elements carry their name as
    written in the file, prefix included. *)

Inductive Node :=
| DocumentNode (children : list Node)
| ElementNode (name : string) (attrs : list (string * string)) (children : list Node)
| TextNode (data : string)
| CommentNode (data : string).

(** The nodes strictly below a node, in document order. *)
Fixpoint descendants (n : Node) : list Node :=
  let below := fix below (l : list Node) : list Node :=
    match l with
    | [] => []
    | c :: rest => c :: descendants c ++ below rest
    end in
  match n with
  | DocumentNode cs => below cs
  | ElementNode _ _ cs => below cs
  | TextNode _ => []
  | CommentNode _ => []
  end.

Definition isElement (qname : string) (n : Node) : bool :=
  match n with
  | ElementNode name _ _ => String.eqb name qname
  | _ => false
  end.

(** [xmlquery.Find(top, "//" + qname)]: every element of that name in the
    document, in document order. *)
Definition Find (top : Node) (qname : string) : list Node :=
  filter (isElement qname) (descendants top).

(** [xmlquery.FindOne(top, "//" + qname)]: the first one, or nil. *)
Definition FindOne (top : Node) (qname : string) : option Node :=
  match Find top qname with
  | n :: _ => Some n
  | [] => None
  end.

Fixpoint lookupAttr (attrs : list (string * string)) (name : string) : string :=
  match attrs with
  | [] => EmptyString
  | (k, v) :: rest => if String.eqb k name then v else lookupAttr rest name
  end.

(** [n.SelectAttr(name)]; calling it on a nil node panics. *)
Definition SelectAttr (n : option Node) (name : string) : IO string :=
  match n with
  | None => panic
  | Some (ElementNode _ attrs _) => ret (lookupAttr attrs name)
  | Some _ => ret EmptyString
  end.

(** [n.InnerText()]: the text below the node, concatenated. *)
Fixpoint InnerText (n : Node) : string :=
  let texts := fix texts (l : list Node) : string :=
    match l with
    | [] => EmptyString
    | c :: rest => String.append (InnerText c) (texts rest)
    end in
  match n with
  | DocumentNode cs => texts cs
  | ElementNode _ _ cs => texts cs
  | TextNode d => d
  | CommentNode _ => EmptyString
  end.

(** ** The world the program runs in *)

(** What opening and reading a path gives. *)
Inductive FileData :=
| OpenFails (msg : string)
| ReadFails (msg : string)
| Bytes (b : string).

(** A path: what [os.Stat] returns for it and what is read from it. *)
Record File := { stat : string + Z; data : FileData }.

Definition regular (b : string) : File :=
  {| stat := inr (Z.of_nat (String.length b)); data := Bytes b |}.

(** What [filepath.Walk] meets at a path: something that is not a directory,
    a directory (whose listing may fail) with its entries in lexical order,
    or a path whose [Lstat] fails. *)
Inductive Tree :=
| TFile
| TDir (readErr : option string) (entries : list (string * Tree))
| TBroken (msg : string).

(** An aspell speller: the words its dictionary accepts. *)
Record Speller := { Check : string -> bool }.

(** Everything outside the program that a run depends on: the directory
    trees, the files by path, the XML parser and the MD5 digest (in
    hexadecimal) as functions of the bytes, the outcome of
    [aspell.NewSpeller], and the [-v] flag. *)
Record World := {
  tree : string -> Tree;
  file : string -> File;
  xmlParse : string -> string + Node;
  md5hex : string -> string;
  NewSpeller : string + Speller;
  verboseFlag : bool
}.

Record FileInfo := { IsDir : bool }.

(** ** [filepath.Walk]

    The walk of the Go library, over a [Tree].  [walk] hands a path that is
    not a directory to the function.  For a directory it reads the names,
    calls the function with the directory and the error of the reading, and
    returns what the function returned if either failed; otherwise it goes
    through the names in order: the name is joined to the path and its
    [Lstat] taken; when that fails the function is called with the error,
    otherwise the entry is walked.  An error ends the loop, except [SkipDir]
    from the function on a failed [Lstat] or from the walk of a directory.
    [Walk] starts with the [Lstat] of the root and turns a final [SkipDir] or
    [SkipAll] into nil. *)

Definition WalkFunc := string -> option FileInfo -> option error -> IO (option error).

Definition isSkipDir (e : error) : bool :=
  match e with SkipDir => true | _ => false end.

Definition isSkip (e : error) : bool :=
  match e with SkipDir | SkipAll => true | _ => false end.

Definition isDirTree (t : Tree) : bool :=
  match t with TDir _ _ => true | _ => false end.

(** One step of the loop of [walk] over the names of a directory: [visit]
    walks the entry, [next] the names after it. *)
Definition walkEntry (fn : WalkFunc) (filename : string) (t : Tree)
    (visit : IO (option error)) (next : IO (option error)) : IO (option error) :=
  match t with
  | TBroken msg =>
      r <- fn filename None (Some (Failure msg)) ;;
      match r with
      | Some e => if isSkipDir e then next else ret (Some e)
      | None => next
      end
  | _ =>
      r <- visit ;;
      match r with
      | Some e => if negb (isDirTree t) || negb (isSkipDir e) then ret (Some e) else next
      | None => next
      end
  end.

Fixpoint walk (fn : WalkFunc) (path : string) (t : Tree) : IO (option error) :=
  match t with
  | TFile => fn path (Some {| IsDir := false |}) None
  | TBroken msg => fn path None (Some (Failure msg))
  | TDir readErr entries =>
      err1 <- fn path (Some {| IsDir := true |}) (option_map Failure readErr) ;;
      match readErr, err1 with
      | None, None =>
          (fix loop (l : list (string * Tree)) : IO (option error) :=
             match l with
             | [] => ret None
             | (name, child) :: rest =>
                 walkEntry fn (PathJoin path name) child
                           (walk fn (PathJoin path name) child) (loop rest)
             end) entries
      | _, _ => ret err1
      end
  end.

(** The loop of [walk] on its own. *)
Fixpoint walkNames (fn : WalkFunc) (path : string) (l : list (string * Tree))
  : IO (option error) :=
  match l with
  | [] => ret None
  | (name, child) :: rest =>
      walkEntry fn (PathJoin path name) child
                (walk fn (PathJoin path name) child) (walkNames fn path rest)
  end.

Definition Walk (w : World) (root : string) (fn : WalkFunc) : IO (option error) :=
  err <- walk fn root (tree w root) ;;
  match err with
  | Some e => if isSkip e then ret None else ret (Some e)
  | None => ret None
  end.

(** ** The program (xmlquery variant) *)

Section Program.

Variable w : World.

(** [os.Open]: the reader, or the error. *)
Definition osOpen (path : string) : error + FileData :=
  match data (file w path) with
  | OpenFails msg => inl (Failure msg)
  | d => inr d
  end.

Definition printSvg (node : Node) : IO unit :=
  let n := FindOne node "svg" in
  wd <- SelectAttr n "width" ;;
  h <- SelectAttr n "height" ;;
  v <- SelectAttr n "viewBox" ;;
  print (SvgInfo wd h v).

Definition parseSvg (reader : FileData) : IO (error + Node) :=
  let parsed :=
    match reader with
    | Bytes b => xmlParse w b
    | ReadFails msg => inl msg
    | OpenFails msg => inl msg
    end in
  match parsed with
  | inl msg =>
      print (OpError "parseSvg" (CouldNotParse (Failure msg))) ;;
      ret (inl (Failure msg))
  | inr xmlDoc => ret (inr xmlDoc)
  end.

Definition checkKeywords (path : string) (node : Node) : IO unit :=
  let nodes := Find node "rdf:li" in
  when (length nodes =? 0)%nat (print (Diag path ERROR KeywordsMissing)).

Definition checkSize (path : string) (node : Node) : IO unit :=
  let n := FindOne node "svg" in
  ws <- SelectAttr n "width" ;;
  wd <- toFloat ws ;;
  hs <- SelectAttr n "height" ;;
  h <- toFloat hs ;;
  when (f64_lt wd (toFloat64 minWidth)) (print (Diag path ERROR (WidthTooSmall wd))) ;;
  when (f64_lt h (toFloat64 minHeight)) (print (Diag path ERROR (HeightTooSmall h))).

Definition checkUnits (path : string) (node : Node) : IO unit :=
  let n := FindOne node "svg" in
  wd <- SelectAttr n "width" ;;
  h <- SelectAttr n "height" ;;
  when (f64_ne (getUnitConversion wd) (toFloat64 (dint 1)))
       (print (Diag path WARNING (WidthUnits wd))) ;;
  when (f64_ne (getUnitConversion h) (toFloat64 (dint 1)))
       (print (Diag path WARNING (HeightUnits h))).

Definition checkIdentifier (path : string) (node : Node) : IO unit :=
  match FindOne node "dc:identifier" with
  | None => print (Diag path ERROR IdentifierMissing)
  | Some _ => ret tt
  end.

(** The [append] loops of the two spelling checks. *)
Definition innerTexts (nodes : list Node) : list string :=
  fold_left (fun acc n => acc ++ [InnerText n]) nodes [].

Definition misspelledWords (accept : string -> bool) (texts : list string) : list string :=
  fold_left
    (fun misspelled text =>
       if negb (String.eqb text EmptyString) then
         fold_left
           (fun misspelled word =>
              if negb (accept word) then misspelled ++ [word] else misspelled)
           (Split text " ") misspelled
       else misspelled)
    texts [].

Definition checkKeywordSpelling (path : string) (node : Node) : IO unit :=
  match NewSpeller w with
  | inl msg => print (OpError "checkKeywordSpelling" (SpellerFailed (Failure msg)))
  | inr speller =>
      let nodes := Find node "rdf:li" in
      if (length nodes =? 0)%nat then ret tt
      else
        let keywords := innerTexts nodes in
        let misspelled := misspelledWords (Check speller) keywords in
        when (0 <? length misspelled)%nat
             (print (Diag path ERROR (KeywordsMisspelled (Join misspelled ", "))))
  end.

Definition checkTspanSpelling (path : string) (node : Node) : IO unit :=
  match NewSpeller w with
  | inl msg => print (OpError "checkKeywordSpelling" (SpellerFailed (Failure msg)))
  | inr speller =>
      let nodes := Find node "svg:tspan" in
      if (length nodes =? 0)%nat then ret tt
      else
        let tspans := innerTexts nodes in
        let misspelled :=
          misspelledWords (fun word => Check speller (Replace word "/")) tspans in
        when (0 <? length misspelled)%nat
             (print (Diag path ERROR (TextMisspelled (Join misspelled ", "))))
  end.

Definition makeHash (path : string) : IO string :=
  match data (file w path) with
  | OpenFails msg =>
      print (OpError "makeHash" (UnableOpen path (Failure msg))) ;;
      ret EmptyString
  | ReadFails msg =>
      print (OpError "makeHash" (UnableHash path (Failure msg))) ;;
      ret EmptyString
  | Bytes b => ret (md5hex w b)
  end.

Definition getFileSize (path : string) : IO Z :=
  match stat (file w path) with
  | inl msg => print (PrintSize path (Failure msg)) ;; ret 0%Z
  | inr size => ret size
  end.

(** The function literal that [checkDuplicates] passes to [filepath.Walk]. *)
Definition checkDuplicatesFunc (checkPath aHash aBasename : string) (aSize : Z)
  : WalkFunc :=
  fun path info err =>
    match err with
    | Some e =>
        print (OpError "checkDuplicates" (UnableAccess path e)) ;;
        ret (Some e)
    | None =>
        if negb (String.eqb (Ext path) ".svg") then ret None
        else
          when (String.eqb aBasename (Base path))
               (print (Diag checkPath WARNING (DuplicateName path))) ;;
          size <- getFileSize path ;;
          when (Z.eqb aSize size)
               (print (Diag checkPath WARNING (DuplicateSize path))) ;;
          hash <- makeHash path ;;
          when (String.eqb aHash hash)
               (print (Diag checkPath WARNING (DuplicateHash path))) ;;
          ret None
    end.

Definition checkDuplicates (checkPath dupDir : string) (node : Node) : IO unit :=
  aHash <- makeHash checkPath ;;
  let aBasename := Base checkPath in
  aSize <- getFileSize checkPath ;;
  err <- Walk w dupDir (checkDuplicatesFunc checkPath aHash aBasename aSize) ;;
  match err with
  | Some e => print (OpError "checkDuplicates" (UnableWalk dupDir e))
  | None => ret tt
  end.

(** The function literal that [checkTiles] passes to [filepath.Walk]. *)
Definition checkTilesFunc (dupDir : string) : WalkFunc :=
  fun path info err =>
    match err with
    | Some e =>
        print (OpError "checkTiles" (UnableAccessPath path e)) ;;
        ret (Some e)
    | None =>
        if negb (String.eqb (Ext path) ".svg") then ret None
        else
          when (verboseFlag w) (print (Trace path)) ;;
          match osOpen path with
          | inl e =>
              print (OpError "checkTiles" (UnableOpen path e)) ;;
              ret (Some e)
          | inr file =>
              parsed <- parseSvg file ;;
              match parsed with
              | inl e => ret (Some e)
              | inr rootNode =>
                  when (verboseFlag w) (printSvg rootNode) ;;
                  checkKeywords path rootNode ;;
                  checkSize path rootNode ;;
                  checkUnits path rootNode ;;
                  checkIdentifier path rootNode ;;
                  checkKeywordSpelling path rootNode ;;
                  checkTspanSpelling path rootNode ;;
                  checkDuplicates path dupDir rootNode ;;
                  ret None
              end
          end
    end.

Definition checkTiles (checkDir dupDir : string) : IO (option error) :=
  err <- Walk w checkDir (checkTilesFunc dupDir) ;;
  match err with
  | Some e => print (OpError "checkTiles" (UnableWalk checkDir e)) ;; ret (Some e)
  | None => ret None
  end.

End Program.

(** ** The program (schema-bound variant)

    The earlier variant decodes the document with [encoding/xml] into the
    structures below; an absent element or attribute leaves its field at the
    zero value.  Its lines are punctuated differently
    (["%q: \tERROR: keywords missing"]); they carry the same information and
    are recorded with the same constructors.  It has no duplicate detector,
    and its text-run check only prints two counts. *)

Module Decode.

Record Bag := { Items : list string }.
Record Subject := { SubjectBag : Bag }.
Record Work := { About : string; WorkSubject : Subject; Identifier : string }.
Record Rdf := { RdfWork : Work }.
Record Metadata := { MetadataId : string; MetadataRdf : Rdf }.
Record Tspan := { TspanId : string; X : string; Y : string; TspanInnerText : string }.
Record Text := { Tspans : list Tspan }.
Record Svg := {
  Width : string;
  Height : string;
  ViewBox : string;
  SvgMetadata : Metadata;
  Texts : list Text;
  GroupedTexts : list Text
}.

Definition keywordsOf (svg : Svg) : list string :=
  Items (SubjectBag (WorkSubject (RdfWork (MetadataRdf (SvgMetadata svg))))).

Definition identifierOf (svg : Svg) : string :=
  Identifier (RdfWork (MetadataRdf (SvgMetadata svg))).

Section Program.

Variable w : World.
Variable xmlDecode : string -> string + Svg.

Definition printSvg (svg : Svg) : IO unit :=
  print (SvgInfo (Width svg) (Height svg) (ViewBox svg)) ;;
  print (KeywordsInfo (Join (keywordsOf svg) ", ")) ;;
  print (IdentifierInfo (identifierOf svg)).

Definition parseSvg (reader : FileData) : IO (error + Svg) :=
  let decoded :=
    match reader with
    | Bytes b => xmlDecode b
    | ReadFails msg => inl msg
    | OpenFails msg => inl msg
    end in
  match decoded with
  | inl msg =>
      print (OpError "parseSvg" (CouldNotParse (Failure msg))) ;;
      ret (inl (Failure msg))
  | inr svg => ret (inr svg)
  end.

Definition checkKeywords (path : string) (svg : Svg) : IO unit :=
  when (length (keywordsOf svg) =? 0)%nat (print (Diag path ERROR KeywordsMissing)).

Definition checkSize (path : string) (svg : Svg) : IO unit :=
  wd <- toFloat (Width svg) ;;
  h <- toFloat (Height svg) ;;
  when (f64_lt wd (toFloat64 minWidth)) (print (Diag path ERROR (WidthTooSmall wd))) ;;
  when (f64_lt h (toFloat64 minHeight)) (print (Diag path ERROR (HeightTooSmall h))).

Definition checkUnits (path : string) (svg : Svg) : IO unit :=
  when (f64_ne (getUnitConversion (Width svg)) (toFloat64 (dint 1)))
       (print (Diag path WARNING (WidthUnits (Width svg)))) ;;
  when (f64_ne (getUnitConversion (Height svg)) (toFloat64 (dint 1)))
       (print (Diag path WARNING (HeightUnits (Height svg)))).

Definition checkIdentifier (path : string) (svg : Svg) : IO unit :=
  when (String.eqb (identifierOf svg) EmptyString)
       (print (Diag path ERROR IdentifierMissing)).

Definition checkKeywordSpelling (path : string) (svg : Svg) : IO unit :=
  match NewSpeller w with
  | inl msg => print (OpError "checkKeywordSpelling" (SpellerFailed (Failure msg)))
  | inr speller =>
      let keywords := keywordsOf svg in
      if (length keywords =? 0)%nat then ret tt
      else
        let misspelled := misspelledWords (Check speller) keywords in
        when (0 <? length misspelled)%nat
             (print (Diag path ERROR (KeywordsMisspelled (Join misspelled ", "))))
  end.

Definition checkTspanSpelling (path : string) (svg : Svg) : IO unit :=
  let texts := Texts svg in
  print (TextCounts path (length texts) (length (GroupedTexts svg))).

Definition checkTilesFunc : WalkFunc :=
  fun path info err =>
    match err with
    | Some e =>
        print (OpError "checkTiles" (UnableAccessPath path e)) ;;
        ret (Some e)
    | None =>
        if negb (String.eqb (Ext path) ".svg") then ret None
        else
          when (verboseFlag w) (print (Trace path)) ;;
          match osOpen w path with
          | inl e =>
              print (OpError "checkTiles" (UnableOpen path e)) ;;
              ret (Some e)
          | inr file =>
              parsed <- parseSvg file ;;
              match parsed with
              | inl e => ret (Some e)
              | inr svg =>
                  when (verboseFlag w) (printSvg svg) ;;
                  checkKeywords path svg ;;
                  checkSize path svg ;;
                  checkUnits path svg ;;
                  checkIdentifier path svg ;;
                  checkKeywordSpelling path svg ;;
                  checkTspanSpelling path svg ;;
                  ret None
              end
          end
    end.

Definition checkTiles (checkDir dupDir : string) : IO (option error) :=
  err <- Walk w checkDir checkTilesFunc ;;
  match err with
  | Some e => print (OpError "checkTiles" (UnableWalk checkDir e)) ;; ret (Some e)
  | None => ret None
  end.

End Program.

End Decode.

(** ** Reference definitions

    What the properties below compare the program with: a suffix test by
    structural recursion, the unit table read in priority order, and the shape
    and value of a decimal numeral. *)

(** Some tail of [s] is [u]. *)
Fixpoint endsWith (s u : string) : bool :=
  String.eqb s u ||
  match s with
  | EmptyString => false
  | String _ t => endsWith t u
  end.

Definition unitTable : list (string * decimal) :=
  [("in", pxPerIn); ("mm", pxPerMm); ("pt", pxPerPt); ("pc", pxPerPc);
   ("ft", pxPerFt); ("cm", pxPerCm); ("m", pxPerM)].

(** The multiplier of the first unit of the table that ends the string, and
    [1.0] when none does. *)
Definition unitMultiplier (s : string) : float64 :=
  match find (fun entry => endsWith s (fst entry)) unitTable with
  | Some (_, c) => toFloat64 c
  | None => toFloat64 (dint 1)
  end.

Definition isNumericByte (c : ascii) : bool := isDigit c || isDot c.

Fixpoint countBytes (p : ascii -> bool) (s : string) : nat :=
  match s with
  | EmptyString => 0
  | String c t => (if p c then 1 else 0) + countBytes p t
  end.

Fixpoint allBytes (p : ascii -> bool) (s : string) : bool :=
  match s with
  | EmptyString => true
  | String c t => p c && allBytes p t
  end.

(** A numeral: digits and dots only, at least one digit, at most one dot. *)
Definition isNumeral (s : string) : bool :=
  allBytes isNumericByte s &&
  (1 <=? countBytes isDigit s)%nat &&
  (countBytes isDot s <=? 1)%nat.

(** The number a string of digits denotes. *)
Fixpoint digitsValue (s : string) : Z :=
  match s with
  | EmptyString => 0
  | String c t =>
      Z.of_nat (nat_of_ascii c - 48) * 10 ^ Z.of_nat (String.length t) + digitsValue t
  end.

Definition isEmptyString (s : string) : bool := String.eqb s EmptyString.

(** The tokens of the non-empty texts that [accept] turns down. *)
Definition rejectedTokens (accept : string -> bool) (texts : list string) : list string :=
  filter (fun tok => negb (accept tok))
         (flat_map (fun t => Split t " ")
                   (filter (fun t => negb (isEmptyString t)) texts)).

(** The value [toFloat] returns, and the lines the size and the unit check
    write for a width and a height. *)
Definition magnitude (s : string) : float64 := fst (ParseFloat (ReplaceAllNonNumeric s)).

Definition sizeErrors (path ws hs : string) : list Line :=
  (if f64_lt (magnitude ws) (toFloat64 minWidth)
   then [Diag path ERROR (WidthTooSmall (magnitude ws))] else []) ++
  (if f64_lt (magnitude hs) (toFloat64 minHeight)
   then [Diag path ERROR (HeightTooSmall (magnitude hs))] else []).

Definition unitWarnings (path ws hs : string) : list Line :=
  (if f64_ne (getUnitConversion ws) (toFloat64 (dint 1))
   then [Diag path WARNING (WidthUnits ws)] else []) ++
  (if f64_ne (getUnitConversion hs) (toFloat64 (dint 1))
   then [Diag path WARNING (HeightUnits hs)] else []).

(** ** The walk as a sequence of visits

    The calls a walk makes when no call stops it: the path, the file
    information and the error each call is handed, in the order of the
    walk. *)

Record Visit := { vpath : string; vinfo : option FileInfo; verr : option error }.

Fixpoint visits (path : string) (t : Tree) : list Visit :=
  match t with
  | TFile => [{| vpath := path; vinfo := Some {| IsDir := false |}; verr := None |}]
  | TBroken msg => [{| vpath := path; vinfo := None; verr := Some (Failure msg) |}]
  | TDir (Some msg) _ =>
      [{| vpath := path; vinfo := Some {| IsDir := true |};
          verr := Some (Failure msg) |}]
  | TDir None entries =>
      {| vpath := path; vinfo := Some {| IsDir := true |}; verr := None |} ::
      (fix below (l : list (string * Tree)) : list Visit :=
         match l with
         | [] => []
         | (name, child) :: rest => visits (PathJoin path name) child ++ below rest
         end) entries
  end.

Fixpoint visitsBelow (path : string) (l : list (string * Tree)) : list Visit :=
  match l with
  | [] => []
  | (name, child) :: rest => visits (PathJoin path name) child ++ visitsBelow path rest
  end.

Definition visit (fn : WalkFunc) (v : Visit) : IO (option error) :=
  fn (vpath v) (vinfo v) (verr v).

(** Make the visits one after the other and stop at the first error. *)
Fixpoint visitAll (fn : WalkFunc) (vs : list Visit) : IO (option error) :=
  match vs with
  | [] => ret None
  | v :: rest =>
      r <- visit fn v ;;
      match r with
      | Some e => ret (Some e)
      | None => visitAll fn rest
      end
  end.

Definition plainError (err : option error) : Prop :=
  forall e, err = Some e -> isSkip e = false.

(** A function that never asks the walk to skip: it returns [SkipDir] or
    [SkipAll] only if it was handed one. *)
Definition neverSkips (fn : WalkFunc) : Prop :=
  forall path info err e,
    plainError err -> result (fn path info err) = Val (Some e) -> isSkip e = false.

(** The values [makeHash] and [getFileSize] return for a path. *)
Definition hashOf (w : World) (path : string) : string :=
  match data (file w path) with
  | Bytes b => md5hex w b
  | _ => EmptyString
  end.

Definition sizeOf (w : World) (path : string) : Z :=
  match stat (file w path) with
  | inr size => size
  | inl _ => 0%Z
  end.

(** What the function of [checkDuplicates] writes about a reference file
    with the extension [.svg]. *)
Definition matchLines (w : World) (checkPath aHash aBasename : string) (aSize : Z)
    (path : string) : list Line :=
  (if String.eqb aBasename (Base path)
   then [Diag checkPath WARNING (DuplicateName path)] else []) ++
  output (getFileSize w path) ++
  (if Z.eqb aSize (sizeOf w path)
   then [Diag checkPath WARNING (DuplicateSize path)] else []) ++
  output (makeHash w path) ++
  (if String.eqb aHash (hashOf w path)
   then [Diag checkPath WARNING (DuplicateHash path)] else []).

(** The function [checkDuplicates] walks the reference tree with. *)
Definition duplicatesOf (w : World) (checkPath : string) : WalkFunc :=
  checkDuplicatesFunc w checkPath (hashOf w checkPath) (Base checkPath)
                      (sizeOf w checkPath).

(** What the scan writes at a visit that carries no error. *)
Definition scanLines (w : World) (checkPath : string) (v : Visit) : list Line :=
  if String.eqb (Ext (vpath v)) ".svg"
  then matchLines w checkPath (hashOf w checkPath) (Base checkPath)
                  (sizeOf w checkPath) (vpath v)
  else [].

(** A line about a match is backed by the equality it reports; the walk of
    the reference tree writes no other diagnostic. *)
Definition matchBacked (w : World) (checkPath : string) (l : Line) : Prop :=
  match l with
  | Diag c WARNING (DuplicateName p) =>
      c = checkPath /\ Base checkPath = Base p /\ Ext p = ".svg"
  | Diag c WARNING (DuplicateSize p) =>
      c = checkPath /\ sizeOf w checkPath = sizeOf w p /\ Ext p = ".svg"
  | Diag c WARNING (DuplicateHash p) =>
      c = checkPath /\ hashOf w checkPath = hashOf w p /\ Ext p = ".svg"
  | Diag _ _ _ => False
  | _ => True
  end.

(** Hashing a path fails: it cannot be opened, or read. *)
Definition hashingFails (w : World) (path : string) : Prop :=
  match data (file w path) with
  | Bytes _ => False
  | _ => True
  end.

(** The first line of a tile's visit, in verbose mode. *)
Definition traceLine (w : World) (path : string) : list Line :=
  if verboseFlag w then [Trace path] else [].

(** ** Small worlds

    A reference tree with the matching file one directory down; a world where
    nothing can be hashed; a reference tree whose first entry cannot be
    reached; a check tree whose first tile cannot be opened. *)

Definition nestedWorld : World :=
  {| tree := fun _ => TDir None [("2019", TDir None [("old.svg", TFile)]);
                                 ("notes.txt", TFile)];
     file := fun _ => regular "<svg/>";
     xmlParse := fun _ => inl "not used";
     md5hex := fun b => b;
     NewSpeller := inl "not used";
     verboseFlag := false |}.

Definition brokenWorld : World :=
  {| tree := fun _ => TDir None [("old.svg", TFile)];
     file := fun path =>
               if String.eqb path "tiles/new.svg"
               then {| stat := inl "stale handle"; data := ReadFails "i/o error" |}
               else {| stat := inr 0%Z; data := OpenFails "permission denied" |};
     xmlParse := fun _ => inl "not used";
     md5hex := fun b => b;
     NewSpeller := inl "not used";
     verboseFlag := false |}.

Definition refWorld : World :=
  {| tree := fun _ => TDir None [("a.svg", TBroken "permission denied");
                                 ("b.svg", TFile)];
     file := fun _ => regular "<svg/>";
     xmlParse := fun _ => inl "not used";
     md5hex := fun b => b;
     NewSpeller := inl "not used";
     verboseFlag := false |}.

Definition plainTile : Node :=
  DocumentNode
    [ElementNode "svg" [("width", "100"); ("height", "100")]
       [ElementNode "dc:identifier" [] [TextNode "tile-b"]]].

Definition tileWorld : World :=
  {| tree := fun path =>
               if String.eqb path "tiles"
               then TDir None [("a.svg", TFile); ("b.svg", TFile)]
               else TDir None [];
     file := fun path =>
               if String.eqb path "tiles/a.svg"
               then {| stat := inr 6%Z; data := OpenFails "permission denied" |}
               else regular "<svg/>";
     xmlParse := fun _ => inr plainTile;
     md5hex := fun b => b;
     NewSpeller := inr {| Check := fun _ => true |};
     verboseFlag := false |}.

(** A tile whose Dublin Core identifier element is there and empty: the tree
    the XML parser builds for it, and the structure the schema-bound decoder
    fills (no size, no keywords, no texts, the identifier empty). *)
Definition emptyIdentifier : Node := ElementNode "dc:identifier" [] [].

Definition emptyIdentifierTile : Node :=
  DocumentNode
    [ElementNode "svg" []
       [ElementNode "metadata" []
          [ElementNode "rdf:RDF" []
             [ElementNode "cc:Work" [] [emptyIdentifier]]]]].

Definition emptyIdentifierSvg : Decode.Svg :=
  {| Decode.Width := EmptyString;
     Decode.Height := EmptyString;
     Decode.ViewBox := EmptyString;
     Decode.SvgMetadata :=
       {| Decode.MetadataId := EmptyString;
          Decode.MetadataRdf :=
            {| Decode.RdfWork :=
                 {| Decode.About := EmptyString;
                    Decode.WorkSubject :=
                      {| Decode.SubjectBag := {| Decode.Items := [] |} |};
                    Decode.Identifier := EmptyString |} |} |};
     Decode.Texts := [];
     Decode.GroupedTexts := [] |}.

(** ** Further reference definitions *)

(** The unit suffixes [getUnitConversion] knows. *)
Definition unitSuffixes : list string := ["in"; "mm"; "pt"; "pc"; "ft"; "cm"; "m"].

Definition hasUnit (s : string) : bool := existsb (endsWith s) unitSuffixes.

(** A float64 that is zero, positive or plus infinity. *)
Definition nonNegative (f : float64) : Prop :=
  match f with
  | S754_zero false => True
  | S754_finite false _ _ => True
  | S754_infinity false => True
  | _ => False
  end.

Definition isInfinity (f : float64) : bool :=
  match f with
  | S754_infinity _ => true
  | _ => false
  end.

Definition unitsTile : Node :=
  DocumentNode [ElementNode "svg" [("width", "10cm"); ("height", "120")] []].

Definition bareTile : Node :=
  DocumentNode [ElementNode "svg" [("height", "12 px")] []].

Definition keywordsTile : Node :=
  DocumentNode
    [ElementNode "svg" [("width", "100"); ("height", "100")]
       [ElementNode "rdf:Bag" []
          [ElementNode "rdf:li" [] [TextNode "stone wall"];
           ElementNode "rdf:li" [] [];
           ElementNode "rdf:li" [] [TextNode "mossy walll"]]]].

Definition wallWorld : World :=
  {| tree := fun _ => TDir None [];
     file := fun _ => regular "<svg/>";
     xmlParse := fun _ => inr keywordsTile;
     md5hex := fun b => b;
     NewSpeller := inr {| Check := fun s => negb (String.eqb s "walll") |};
     verboseFlag := false |}.

(** A check tree that is its own reference tree, and a reference tree
    without a tile. *)
Definition sharedWorld : World :=
  {| tree := fun _ => TDir None [("a.svg", TFile)];
     file := fun _ => {| stat := inl "stale"; data := ReadFails "i/o error" |};
     xmlParse := fun _ => inl "not used";
     md5hex := fun b => b;
     NewSpeller := inl "not used";
     verboseFlag := false |}.

Definition notesWorld : World :=
  {| tree := fun _ => TDir None [("notes.txt", TFile); ("old", TDir None [])];
     file := fun _ => regular "<svg/>";
     xmlParse := fun _ => inl "not used";
     md5hex := fun b => b;
     NewSpeller := inl "not used";
     verboseFlag := false |}.

(** ** The lines of a tile and of a run *)

(** What the visit of a sound tile writes: the trace and the summary in
    verbose mode, then the lines of the seven checks in their order. *)
Definition tileLines (w : World) (dupDir path : string) (doc : Node) : list Line :=
  traceLine w path ++
  (if verboseFlag w then output (printSvg doc) else []) ++
  output (checkKeywords path doc) ++
  output (checkSize path doc) ++
  output (checkUnits path doc) ++
  output (checkIdentifier path doc) ++
  output (checkKeywordSpelling w path doc) ++
  output (checkTspanSpelling w path doc) ++
  output (checkDuplicates w path dupDir doc).

(** The document a path holds, when it can be read and parsed. *)
Definition tileOf (w : World) (path : string) : option Node :=
  match data (file w path) with
  | Bytes b => match xmlParse w b with
               | inr doc => Some doc
               | inl _ => None
               end
  | _ => None
  end.

(** A visit that goes well: no traversal error, and if the path has the
    extension [.svg] it holds a document with an [svg] element. *)
Definition soundVisit (w : World) (v : Visit) : Prop :=
  verr v = None /\
  (Ext (vpath v) = ".svg" ->
   exists doc n, tileOf w (vpath v) = Some doc /\ FindOne doc "svg" = Some n).

Definition visitLines (w : World) (dupDir : string) (v : Visit) : list Line :=
  if String.eqb (Ext (vpath v)) ".svg" then
    match tileOf w (vpath v) with
    | Some doc => tileLines w dupDir (vpath v) doc
    | None => []
    end
  else [].

(** The world with the [-v] flag set or cleared. *)
Definition setVerbose (b : bool) (w : World) : World :=
  {| tree := tree w; file := file w; xmlParse := xmlParse w; md5hex := md5hex w;
     NewSpeller := NewSpeller w; verboseFlag := b |}.

(** A check tree with two sound tiles and a text file; a check tree whose
    first tile is a document without an [svg] element. *)
Definition twoTilesWorld : World :=
  {| tree := fun path =>
               if String.eqb path "tiles"
               then TDir None [("a.svg", TFile); ("b.txt", TFile);
                               ("sub", TDir None [("c.svg", TFile)])]
               else TDir None [];
     file := fun _ => regular "<svg/>";
     xmlParse := fun _ => inr plainTile;
     md5hex := fun b => b;
     NewSpeller := inr {| Check := fun _ => true |};
     verboseFlag := false |}.

Definition htmlPage : Node := DocumentNode [ElementNode "html" [] []].

Definition pageWorld : World :=
  {| tree := fun path =>
               if String.eqb path "tiles"
               then TDir None [("a.svg", TFile); ("b.svg", TFile)]
               else TDir None [];
     file := fun _ => regular "<html/>";
     xmlParse := fun _ => inr htmlPage;
     md5hex := fun b => b;
     NewSpeller := inr {| Check := fun _ => true |};
     verboseFlag := false |}.

(** ** The [-v] flag *)

(** The lines only written in verbose mode, and a report without them. *)
Definition verboseOnly (l : Line) : bool :=
  match l with
  | Trace _ | SvgInfo _ _ _ => true
  | _ => false
  end.

Definition withoutVerbose (ls : list Line) : list Line :=
  filter (fun l => negb (verboseOnly l)) ls.

(** The tile a visit gets to, if any, has an [svg] element. *)
Definition hasSvgElement (w : World) (v : Visit) : Prop :=
  Ext (vpath v) = ".svg" ->
  forall doc, tileOf w (vpath v) = Some doc -> FindOne doc "svg" <> None.


(** ** The two variants side by side *)

(** The structure holds what the tree holds: the dimensions of the [svg]
    element and the texts of the keyword items. *)
Definition mirrors (doc : Node) (svg : Decode.Svg) : Prop :=
  exists n,
    FindOne doc "svg" = Some n /\
    SelectAttr (Some n) "width" = ret (Decode.Width svg) /\
    SelectAttr (Some n) "height" = ret (Decode.Height svg) /\
    map InnerText (Find doc "rdf:li") = Decode.keywordsOf svg.

Definition keywordsSvg : Decode.Svg :=
  {| Decode.Width := "100";
     Decode.Height := "100";
     Decode.ViewBox := EmptyString;
     Decode.SvgMetadata :=
       {| Decode.MetadataId := EmptyString;
          Decode.MetadataRdf :=
            {| Decode.RdfWork :=
                 {| Decode.About := EmptyString;
                    Decode.WorkSubject :=
                      {| Decode.SubjectBag :=
                           {| Decode.Items := ["stone wall"; ""; "mossy walll"] |} |};
                    Decode.Identifier := EmptyString |} |} |};
     Decode.Texts := [];
     Decode.GroupedTexts := [] |}.

(** ** The command

    [main] after [getopt.Parse] has read the options: [helpFlag] and
    [verboseFlag] are set from [-?] and [-v] (the latter is kept in the
    world), [Args] are the arguments left.  What [main] writes itself is
    kept apart from the lines of the report; the process ends with the
    status handed to [os.Exit], or in a panic. *)

Inductive MainLine :=
| UsageSynopsis (prog : string)
| UsageHelp
| UsageVerbose
| UsageCheckDirectory
| UsageDuplicateDirectory
| ArgsInfo (nArgs : nat) (args : string)
| Report (l : Line).

Inductive Exit :=
| ExitStatus (code : Z)
| ExitPanic.

Record CommandLine := {
  osArgs : list string;
  helpFlag : bool;
  Args : list string
}.

(** [os.Exit(code)] after a piece of the program that may have panicked. *)
Definition exitWith {A} (code : Z) (r : Res A) : Exit :=
  match r with
  | Val _ => ExitStatus code
  | Panic => ExitPanic
  end.

Definition usage (c : CommandLine) : list MainLine * Res unit :=
  match osArgs c with
  | [] => ([], Panic)
  | prog :: _ =>
      ([UsageSynopsis (Base prog); UsageHelp; UsageVerbose;
        UsageCheckDirectory; UsageDuplicateDirectory], Val tt)
  end.

Definition main (w : World) (c : CommandLine) : list MainLine * Exit :=
  if helpFlag c then
    (fst (usage c), exitWith 0 (snd (usage c)))
  else
    let trace :=
      if verboseFlag w
      then [ArgsInfo (length (osArgs c)) (Join (osArgs c) ", ")]
      else [] in
    match Args c with
    | checkDir :: dupDir :: _ =>
        let run := checkTiles w checkDir dupDir in
        (trace ++ map Report (output run), exitWith 0 (result run))
    | _ =>
        (trace ++ fst (usage c), exitWith 1 (snd (usage c)))
    end.

Definition exitStatus (w : World) (c : CommandLine) : Exit := snd (main w c).

(** A world whose check directory does not exist. *)
Definition missingWorld : World :=
  {| tree := fun _ => TBroken "no such file or directory";
     file := fun _ => regular "<svg/>";
     xmlParse := fun _ => inr plainTile;
     md5hex := fun b => b;
     NewSpeller := inr {| Check := fun _ => true |};
     verboseFlag := false |}.


(** * Properties *)

(** ** The library models on concrete inputs *)

Example Ext_examples :
  Ext "tiles/a.svg" = ".svg" /\ Ext "tiles/a.tar.svg" = ".svg" /\
  Ext "tiles/A.SVG" = ".SVG" /\ Ext "tiles.d/readme" = EmptyString /\
  Ext ".svg" = ".svg" /\ Ext "tiles/a.svg/" = EmptyString.
Proof. repeat split. Qed.

Example Base_examples :
  Base "tiles/a.svg" = "a.svg" /\ Base "a.svg" = "a.svg" /\ Base "tiles/sub/" = "sub" /\
  Base EmptyString = "." /\ Base "///" = "/".
Proof. repeat split. Qed.

Example Split_examples :
  Split "road to rome" " " = ["road"; "to"; "rome"] /\
  Split "a  b" " " = ["a"; EmptyString; "b"] /\
  Split EmptyString " " = [EmptyString] /\
  Split " a " " " = [EmptyString; "a"; EmptyString].
Proof. repeat split. Qed.

Example Join_examples :
  Join ["helo"; "wrld"] ", " = "helo, wrld" /\ Join ["helo"] ", " = "helo" /\
  Join [] ", " = EmptyString.
Proof. repeat split. Qed.

(** 0.1, 1e23 and 2^53 + 1 round as IEEE 754 prescribes. *)
Example toFloat64_examples :
  toFloat64 (Dec 1 1) = S754_finite false 7205759403792794 (-56) /\
  toFloat64 (Dec (10 ^ 23) 0) = S754_finite false 5960464477539062 24 /\
  toFloat64 (Dec 9007199254740993 0) = S754_finite false 4503599627370496 1 /\
  toFloat64 (dint 80) = S754_finite false 5629499534213120 (-46).
Proof. repeat split; vm_compute; reflexivity. Qed.

Example ParseFloat_examples :
  ParseFloat "80" = (toFloat64 (dint 80), None) /\
  ParseFloat ".5" = (toFloat64 (Dec 5 1), None) /\
  ParseFloat "5." = (toFloat64 (dint 5), None) /\
  ParseFloat "." = (S754_zero false, Some (ErrSyntax ".")) /\
  ParseFloat "1.2.3" = (S754_zero false, Some (ErrSyntax "1.2.3")) /\
  ParseFloat EmptyString = (S754_zero false, Some (ErrSyntax EmptyString)).
Proof. repeat split; vm_compute; reflexivity. Qed.

(** ** The monad *)

Lemma bind_val {A B} (m : IO A) (f : A -> IO B) o a :
  m = (o, Val a) -> bind m f = (o ++ output (f a), result (f a)).
Proof. intros ->. unfold bind, output, result. destruct (f a). reflexivity. Qed.

Lemma bind_ret_l {A B} (a : A) (f : A -> IO B) : bind (ret a) f = f a.
Proof. unfold bind, ret. destruct (f a). reflexivity. Qed.

Lemma bind_print {B} l (f : unit -> IO B) :
  bind (print l) f = (l :: output (f tt), result (f tt)).
Proof. unfold bind, print, output, result. destruct (f tt). reflexivity. Qed.

Lemma io_eta {A} (m : IO A) : m = (output m, result m).
Proof. destruct m. reflexivity. Qed.

Lemma output_bind_incl {A B} (m : IO A) (f : A -> IO B) l :
  In l (output m) -> In l (output (bind m f)).
Proof.
  destruct m as [o [a|]]; simpl; intros H.
  - destruct (f a). simpl. apply in_or_app. now left.
  - exact H.
Qed.

Lemma output_bind_val {A B} (m : IO A) (f : A -> IO B) a l :
  result m = Val a -> In l (output (f a)) -> In l (output (bind m f)).
Proof.
  destruct m as [o r]; simpl; intros -> H.
  destruct (f a). simpl in *. apply in_or_app. now right.
Qed.

(** ** Strings *)

Lemma length_append (a b : string) :
  String.length (String.append a b) = String.length a + String.length b.
Proof. induction a; simpl; congruence. Qed.

Lemma substring_all (u : string) : substring 0 (String.length u) u = u.
Proof. induction u; simpl; congruence. Qed.

Lemma substring_append_suffix (p u : string) :
  substring (String.length p) (String.length u) (String.append p u) = u.
Proof. induction p; simpl; [apply substring_all | assumption]. Qed.

Lemma substring_split (s : string) : forall n, n <= String.length s ->
  s = String.append (substring 0 n s) (substring n (String.length s - n) s).
Proof.
  induction s as [|c s IH]; intros [|n] Hn; simpl in *; try lia; try reflexivity.
  - f_equal. symmetry. apply substring_all.
  - f_equal. rewrite <- (IH n) by lia. reflexivity.
Qed.

Lemma HasSuffix_iff (s u : string) :
  HasSuffix s u = true <-> exists p, s = String.append p u.
Proof.
  unfold HasSuffix. rewrite andb_true_iff, Nat.leb_le, String.eqb_eq. split.
  - intros [Hle He].
    exists (substring 0 (String.length s - String.length u) s).
    rewrite (substring_split s (String.length s - String.length u)) at 1 by lia.
    replace (String.length s - (String.length s - String.length u))
      with (String.length u) by lia.
    now rewrite He.
  - intros [p ->]. rewrite length_append. split; [lia|].
    replace (String.length p + String.length u - String.length u)
      with (String.length p) by lia.
    apply substring_append_suffix.
Qed.

Lemma endsWith_iff (s u : string) :
  endsWith s u = true <-> exists p, s = String.append p u.
Proof.
  induction s as [|c s IH]; cbn [endsWith].
  - rewrite orb_false_r, String.eqb_eq. split.
    + intros <-. now exists EmptyString.
    + intros [[|? ?] H]; simpl in H; [congruence | discriminate].
  - rewrite orb_true_iff, String.eqb_eq, IH. split.
    + intros [<- | [p ->]]; [now exists EmptyString | now exists (String c p)].
    + intros [[|c' p] H]; simpl in H; [now left | right].
      injection H as -> ->. now exists p.
Qed.

Lemma HasSuffix_endsWith (s u : string) : HasSuffix s u = endsWith s u.
Proof.
  apply eq_true_iff_eq. rewrite HasSuffix_iff, endsWith_iff. reflexivity.
Qed.

(** Two suffixes of the same length are the same string. *)
Lemma endsWith_same_length (p a b : string) :
  String.length a = String.length b ->
  endsWith (String.append p a) b = String.eqb a b.
Proof.
  intros Hl. rewrite <- HasSuffix_endsWith. unfold HasSuffix.
  rewrite length_append, <- Hl.
  replace (String.length p + String.length a - String.length a)
    with (String.length p) by lia.
  rewrite substring_append_suffix.
  replace (String.length a <=? String.length p + String.length a)%nat with true
    by (symmetry; apply Nat.leb_le; lia).
  reflexivity.
Qed.

(** ** Unit converter *)

Lemma getUnitConversion_table (value : string) :
  getUnitConversion value = unitMultiplier value.
Proof.
  unfold getUnitConversion, unitMultiplier, unitTable.
  rewrite !HasSuffix_endsWith. cbn [find fst].
  repeat match goal with
         | |- context [endsWith value ?u] => destruct (endsWith value u)
         end; reflexivity.
Qed.

Lemma getUnitConversion_two (p u : string) (c : decimal) :
  String.length u = 2 ->
  find (fun entry => String.eqb u (fst entry)) unitTable = Some (u, c) ->
  getUnitConversion (String.append p u) = toFloat64 c.
Proof.
  intros Hl Hf. rewrite getUnitConversion_table. unfold unitMultiplier.
  replace (find (fun entry => endsWith (String.append p u) (fst entry)) unitTable)
    with (Some (u, c)); [reflexivity|].
  rewrite <- Hf. unfold unitTable. cbn [find fst].
  rewrite !(endsWith_same_length p u) by (rewrite Hl; reflexivity).
  repeat match goal with
         | |- context [String.eqb u ?v] => destruct (String.eqb u v) eqn:?
         end; try reflexivity.
  - (* the one-letter unit is not a two-letter suffix *)
    match goal with H : String.eqb u "m" = true |- _ =>
      apply String.eqb_eq in H; subst u; discriminate Hl end.
  - (* no unit matches: the table lookup of the hypothesis fails *)
    unfold unitTable in Hf. cbn [find fst] in Hf.
    repeat match goal with
           | H : String.eqb u ?v = false |- _ => rewrite H in Hf; clear H
           end.
    discriminate Hf.
Qed.

(** C4. For every dimension string [getUnitConversion] is the first match of
    the unit table [in, mm, pt, pc, ft, cm, m] read in that order, with a
    byte-wise (case-sensitive) suffix test, and [1.0] when no unit of the
    table ends the string.  A string that ends in [mm] or [cm] gets the
    [mm] or [cm] constant, which differs from the [m] constant. *)
Theorem C4_getUnitConversion_priority_table :
  (forall value, getUnitConversion value = unitMultiplier value) /\
  (forall p, getUnitConversion (String.append p "mm") = toFloat64 pxPerMm) /\
  (forall p, getUnitConversion (String.append p "cm") = toFloat64 pxPerCm) /\
  toFloat64 pxPerMm <> toFloat64 pxPerM /\
  toFloat64 pxPerCm <> toFloat64 pxPerM /\
  getUnitConversion "30MM" = toFloat64 (dint 1) /\
  getUnitConversion "30px" = toFloat64 (dint 1) /\
  getUnitConversion "30" = toFloat64 (dint 1) /\
  getUnitConversion "" = toFloat64 (dint 1).
Proof.
  split; [exact getUnitConversion_table|].
  split; [intros p; now apply getUnitConversion_two|].
  split; [intros p; now apply getUnitConversion_two|].
  repeat split; try (vm_compute; discriminate); vm_compute; reflexivity.
Qed.

(** ** Magnitude of a dimension string *)

Lemma filterString_filter (p : ascii -> bool) (s : string) :
  list_ascii_of_string (filterString p s) = filter p (list_ascii_of_string s).
Proof.
  induction s as [|c s IH]; simpl; [reflexivity|].
  destruct (p c); simpl; now rewrite IH.
Qed.

Lemma filterString_append (p : ascii -> bool) (a b : string) :
  filterString p (String.append a b) =
  String.append (filterString p a) (filterString p b).
Proof.
  induction a as [|c a IH]; simpl; [reflexivity|].
  destruct (p c); simpl; now rewrite IH.
Qed.

Lemma filterString_all (p : ascii -> bool) (s : string) :
  allBytes p s = true -> filterString p s = s.
Proof.
  induction s as [|c s IH]; simpl; [reflexivity|].
  intros H. apply andb_true_iff in H as [-> H]. now rewrite IH.
Qed.

Lemma filterString_none (p : ascii -> bool) (s : string) :
  allBytes (fun c => negb (p c)) s = true -> filterString p s = EmptyString.
Proof.
  induction s as [|c s IH]; simpl; [reflexivity|].
  intros H. apply andb_true_iff in H as [Hc H].
  apply negb_true_iff in Hc. now rewrite Hc, IH.
Qed.

Lemma allBytes_weaken (p q : ascii -> bool) (s : string) :
  (forall c, p c = true -> q c = true) -> allBytes p s = true -> allBytes q s = true.
Proof.
  intros Hpq. induction s as [|c s IH]; simpl; [reflexivity|].
  intros H. apply andb_true_iff in H as [Hc H]. now rewrite (Hpq _ Hc), IH.
Qed.

Lemma isDot_not_digit (c : ascii) : isDot c = true -> isDigit c = false.
Proof. unfold isDot. intros H. apply Ascii.eqb_eq in H. now subst c. Qed.

Lemma isDigit_not_dot (c : ascii) : isDigit c = true -> isDot c = false.
Proof.
  intros H. destruct (isDot c) eqn:E; [|reflexivity].
  apply isDot_not_digit in E. congruence.
Qed.

(** When the scanner fails: exactly on the strings that are not numerals. *)
Lemma readFloat_None (s : string) : forall sawdot sawdigits m frac,
  readFloat s sawdot sawdigits m frac = None <->
  allBytes isNumericByte s &&
  (sawdigits || (1 <=? countBytes isDigit s)%nat) &&
  (countBytes isDot s + (if sawdot then 1 else 0) <=? 1)%nat = false.
Proof.
  induction s as [|c s IH]; intros sawdot sawdigits m frac.
  - simpl. destruct sawdigits, sawdot; simpl; split; congruence.
  - cbn [readFloat allBytes countBytes]. unfold isNumericByte at 1.
    destruct (isDot c) eqn:Edot.
    + rewrite (isDot_not_digit _ Edot). destruct sawdot.
      * split; [intros _|reflexivity].
        replace (1 + countBytes isDot s + 1 <=? 1)%nat with false
          by (symmetry; apply Nat.leb_gt; lia).
        now rewrite andb_false_r.
      * rewrite IH. cbn [orb andb Nat.add].
        now replace (S (countBytes isDot s + 0))%nat
          with (countBytes isDot s + 1)%nat by lia.
    + destruct (isDigit c) eqn:Edig.
      * rewrite IH. cbn [orb andb Nat.add]. rewrite !orb_true_r.
        reflexivity.
      * cbn [orb andb]. split; reflexivity.
Qed.

Lemma readFloat_numeral (s : string) :
  readFloat s false false 0 0 = None <-> isNumeral s = false.
Proof.
  rewrite readFloat_None. unfold isNumeral. cbn [orb].
  now rewrite Nat.add_0_r.
Qed.

(** What the scanner computes on digits. *)
Lemma readFloat_fraction (f : string) : forall sawdigits m frac,
  allBytes isDigit f = true ->
  readFloat f true sawdigits m frac =
  if sawdigits || negb (isEmptyString f)
  then Some (Dec (m * 10 ^ Z.of_nat (String.length f) + digitsValue f)
                 (frac + String.length f))
  else None.
Proof.
  induction f as [|c f IH]; intros sawdigits m frac H.
  - simpl. rewrite orb_false_r, Z.mul_1_r, Z.add_0_r, Nat.add_0_r. reflexivity.
  - cbn [allBytes] in H. apply andb_true_iff in H as [Hc H].
    cbn [readFloat]. rewrite (isDigit_not_dot _ Hc), Hc, (IH _ _ _ H).
    cbn [orb isEmptyString String.eqb negb]. rewrite orb_true_r.
    cbn [digitsValue String.length]. f_equal. f_equal; [|lia].
    rewrite Nat2Z.inj_succ, Z.pow_succ_r by lia. ring.
Qed.

Lemma readFloat_integer (i rest : string) : forall sawdigits m frac,
  allBytes isDigit i = true ->
  readFloat (String.append i rest) false sawdigits m frac =
  readFloat rest false (sawdigits || negb (isEmptyString i))
            (m * 10 ^ Z.of_nat (String.length i) + digitsValue i) frac.
Proof.
  induction i as [|c i IH]; intros sawdigits m frac H.
  - simpl. now rewrite orb_false_r, Z.mul_1_r, Z.add_0_r.
  - cbn [allBytes] in H. apply andb_true_iff in H as [Hc H].
    cbn [String.append readFloat]. rewrite (isDigit_not_dot _ Hc), Hc, (IH _ _ _ H).
    cbn [orb isEmptyString String.eqb negb]. rewrite !orb_true_r.
    cbn [digitsValue String.length]. f_equal.
    rewrite Nat2Z.inj_succ, Z.pow_succ_r by lia. ring.
Qed.

Lemma digitsValue_append (a b : string) :
  digitsValue (String.append a b) =
  (digitsValue a * 10 ^ Z.of_nat (String.length b) + digitsValue b)%Z.
Proof.
  induction a as [|c a IH]; simpl digitsValue; simpl String.append; [lia|].
  cbn [digitsValue]. rewrite IH, length_append, Nat2Z.inj_add, Z.pow_add_r by lia.
  ring.
Qed.

Lemma isEmptyString_append (a b : string) :
  isEmptyString (String.append a b) = isEmptyString a && isEmptyString b.
Proof. destruct a; reflexivity. Qed.

Lemma readFloat_decimal_point (ip fp : string) :
  allBytes isDigit ip = true -> allBytes isDigit fp = true ->
  isEmptyString (String.append ip fp) = false ->
  readFloat (String.append ip (String "." fp)) false false 0 0 =
  Some (Dec (digitsValue (String.append ip fp)) (String.length fp)).
Proof.
  intros Hi Hf Hne. rewrite (readFloat_integer _ _ _ _ _ Hi).
  cbn [readFloat]. change (isDot ".") with true. cbn iota.
  rewrite (readFloat_fraction _ _ _ _ Hf).
  rewrite isEmptyString_append in Hne.
  rewrite digitsValue_append.
  destruct (isEmptyString ip), (isEmptyString fp); try discriminate;
    cbn [orb negb]; reflexivity.
Qed.

Lemma readFloat_no_point (ip : string) :
  allBytes isDigit ip = true -> isEmptyString ip = false ->
  readFloat ip false false 0 0 = Some (Dec (digitsValue ip) 0).
Proof.
  intros Hi Hne.
  assert (E : ip = String.append ip EmptyString)
    by (clear; induction ip; simpl; congruence).
  rewrite E at 1. rewrite (readFloat_integer _ _ _ _ _ Hi).
  cbn [readFloat orb]. now rewrite Hne.
Qed.

Lemma ParseFloat_value (s : string) :
  fst (ParseFloat s) =
  match readFloat s false false 0 0 with
  | Some d => toFloat64 d
  | None => S754_zero false
  end.
Proof.
  unfold ParseFloat. destruct (readFloat s false false 0 0); [|reflexivity].
  destruct (toFloat64 d); reflexivity.
Qed.

Lemma toFloat_result (s : string) :
  result (toFloat s) = Val (fst (ParseFloat (ReplaceAllNonNumeric s))).
Proof.
  unfold toFloat. destruct (ParseFloat (ReplaceAllNonNumeric s)) as [f [e|]];
    reflexivity.
Qed.

Lemma toFloat_not_numeral (s : string) :
  isNumeral (ReplaceAllNonNumeric s) = false ->
  toFloat s =
  ([OpError "toFloat" (UnableConvert s (ErrSyntax (ReplaceAllNonNumeric s)))],
   Val (S754_zero false)).
Proof.
  intros H. apply readFloat_numeral in H.
  unfold toFloat, ParseFloat. rewrite H. reflexivity.
Qed.

(** The unit letters after a numeral do not reach the parser. *)
Lemma ReplaceAllNonNumeric_unit (num u : string) :
  allBytes isNumericByte num = true ->
  allBytes (fun c => negb (isNumericByte c)) u = true ->
  ReplaceAllNonNumeric (String.append num u) = num.
Proof.
  intros Hn Hu. unfold ReplaceAllNonNumeric.
  change (fun c => isDigit c || isDot c) with isNumericByte.
  rewrite filterString_append, (filterString_all _ _ Hn), (filterString_none _ _ Hu).
  clear. induction num; simpl; congruence.
Qed.

(** C5. [toFloat] first deletes every byte that is neither a digit nor a dot
    and parses what is left: for a numeral [ip.fp] followed by unit letters
    the value is the binary64 nearest to the decimal [ip.fp], and
    [toFloat "80.5mm"] is 80.5 (= 5664683906301952 * 2^-46) with nothing
    reported.  When what is left is empty or not a numeral, one conversion
    error is reported and [toFloat] still returns, with the value 0. *)
Theorem C5_toFloat_strips_then_parses :
  (forall s, list_ascii_of_string (ReplaceAllNonNumeric s) =
             filter isNumericByte (list_ascii_of_string s)) /\
  (forall s, result (toFloat s) = Val (fst (ParseFloat (ReplaceAllNonNumeric s)))) /\
  (forall ip fp u,
      allBytes isDigit ip = true -> allBytes isDigit fp = true ->
      allBytes (fun c => negb (isNumericByte c)) u = true ->
      isEmptyString (String.append ip fp) = false ->
      result (toFloat (String.append (String.append ip (String "." fp)) u)) =
      Val (toFloat64 (Dec (digitsValue (String.append ip fp)) (String.length fp)))) /\
  (forall ip u,
      allBytes isDigit ip = true ->
      allBytes (fun c => negb (isNumericByte c)) u = true ->
      isEmptyString ip = false ->
      result (toFloat (String.append ip u)) = Val (toFloat64 (Dec (digitsValue ip) 0))) /\
  toFloat "80.5mm" = ([], Val (S754_finite false 5664683906301952 (-46))) /\
  (forall s, isNumeral (ReplaceAllNonNumeric s) = false ->
      toFloat s =
      ([OpError "toFloat" (UnableConvert s (ErrSyntax (ReplaceAllNonNumeric s)))],
       Val (S754_zero false))) /\
  (forall s, ReplaceAllNonNumeric s = EmptyString ->
      toFloat s =
      ([OpError "toFloat" (UnableConvert s (ErrSyntax EmptyString))],
       Val (S754_zero false))).
Proof.
  split; [intros s; apply filterString_filter|].
  split; [exact toFloat_result|].
  split.
  { intros ip fp u Hi Hf Hu Hne. rewrite toFloat_result, ParseFloat_value.
    rewrite ReplaceAllNonNumeric_unit; [|clear - Hi Hf|exact Hu].
    - now rewrite readFloat_decimal_point.
    - assert (Hd : forall c, isDigit c = true -> isNumericByte c = true)
        by (intros c Hc; unfold isNumericByte; now rewrite Hc).
      apply (allBytes_weaken _ _ _ Hd) in Hi, Hf.
      clear Hd. induction ip as [|c ip IH]; simpl in *.
      + exact Hf.
      + apply andb_true_iff in Hi as [-> Hi]. now apply IH. }
  split.
  { intros ip u Hi Hu Hne. rewrite toFloat_result, ParseFloat_value.
    rewrite ReplaceAllNonNumeric_unit; [|clear - Hi|exact Hu].
    - now rewrite readFloat_no_point.
    - apply (allBytes_weaken isDigit); [|exact Hi].
      intros c Hc. unfold isNumericByte. now rewrite Hc. }
  split; [vm_compute; reflexivity|].
  split; [exact toFloat_not_numeral|].
  intros s Hs. rewrite toFloat_not_numeral; rewrite Hs; reflexivity.
Qed.

Lemma C5_witness :
  result (toFloat "12.75pt") = Val (toFloat64 (Dec 1275 2)) /\
  result (toFloat "80mm") = Val (toFloat64 (Dec 80 0)) /\
  toFloat "1.2.3px" =
    ([OpError "toFloat" (UnableConvert "1.2.3px" (ErrSyntax "1.2.3"))],
     Val (S754_zero false)) /\
  toFloat "wide" =
    ([OpError "toFloat" (UnableConvert "wide" (ErrSyntax ""))],
     Val (S754_zero false)).
Proof.
  destruct C5_toFloat_strips_then_parses as (_ & _ & Hpoint & Hint & _ & Hbad & Hempty).
  split; [exact (Hpoint "12" "75" "pt" eq_refl eq_refl eq_refl eq_refl)|].
  split; [exact (Hint "80" "mm" eq_refl eq_refl eq_refl)|].
  split; [exact (Hbad "1.2.3px" eq_refl)|].
  exact (Hempty "wide" eq_refl).
Defined.

(** ** Size and unit checks *)

Lemma toFloat_eta (s : string) :
  toFloat s = (output (toFloat s), Val (fst (ParseFloat (ReplaceAllNonNumeric s)))).
Proof. rewrite <- toFloat_result. apply io_eta. Qed.

Lemma toFloat_output (s : string) (l : Line) :
  In l (output (toFloat s)) -> exists f, l = OpError "toFloat" f.
Proof.
  unfold toFloat. destruct (ParseFloat (ReplaceAllNonNumeric s)) as [f [e|]]; simpl.
  - intros [<-|[]]. eauto.
  - intros [].
Qed.

Lemma SelectAttr_some (n : Node) (name : string) :
  exists v, SelectAttr (Some n) name = ret v.
Proof. destruct n; simpl; eauto. Qed.

Lemma checkSize_svg (path : string) (doc n : Node) (ws hs : string) :
  FindOne doc "svg" = Some n ->
  SelectAttr (Some n) "width" = ret ws ->
  SelectAttr (Some n) "height" = ret hs ->
  checkSize path doc =
  (output (toFloat ws) ++ output (toFloat hs) ++ sizeErrors path ws hs, Val tt).
Proof.
  intros Hn Hw Hh. unfold checkSize. rewrite Hn, Hw, bind_ret_l.
  rewrite (bind_val _ _ _ _ (toFloat_eta ws)). rewrite Hh, bind_ret_l.
  rewrite (bind_val _ _ _ _ (toFloat_eta hs)).
  unfold sizeErrors, magnitude.
  destruct (f64_lt (fst (ParseFloat (ReplaceAllNonNumeric ws))) (toFloat64 minWidth));
    destruct (f64_lt (fst (ParseFloat (ReplaceAllNonNumeric hs))) (toFloat64 minHeight));
    reflexivity.
Qed.

Lemma checkUnits_svg (path : string) (doc n : Node) (ws hs : string) :
  FindOne doc "svg" = Some n ->
  SelectAttr (Some n) "width" = ret ws ->
  SelectAttr (Some n) "height" = ret hs ->
  checkUnits path doc = (unitWarnings path ws hs, Val tt).
Proof.
  intros Hn Hw Hh. unfold checkUnits. rewrite Hn, Hw, bind_ret_l, Hh, bind_ret_l.
  unfold unitWarnings.
  destruct (f64_ne (getUnitConversion ws) (toFloat64 (dint 1)));
    destruct (f64_ne (getUnitConversion hs) (toFloat64 (dint 1))); reflexivity.
Qed.

(** C3. The size check compares the parsed magnitude of the width, and of the
    height, with 80 as it stands; the unit only matters to the unit check.
    With width ["80mm"] the unit check warns about the width and the size
    check raises no width error, whatever the height; with width ["60"] and
    height ["100"] the size check writes the width error and nothing else. *)
Theorem C3_size_check_on_raw_magnitude :
  forall (path : string) (doc n : Node),
    FindOne doc "svg" = Some n ->
    (SelectAttr (Some n) "width" = ret "80mm" ->
       In (Diag path WARNING (WidthUnits "80mm")) (output (checkUnits path doc)) /\
       forall x, ~ In (Diag path ERROR (WidthTooSmall x)) (output (checkSize path doc))) /\
    (SelectAttr (Some n) "width" = ret "60" ->
     SelectAttr (Some n) "height" = ret "100" ->
       checkSize path doc =
       ([Diag path ERROR (WidthTooSmall (toFloat64 (dint 60)))], Val tt)) /\
    (forall ws hs,
       SelectAttr (Some n) "width" = ret ws ->
       SelectAttr (Some n) "height" = ret hs ->
       forall x,
         (In (Diag path ERROR (WidthTooSmall x)) (output (checkSize path doc)) <->
          x = magnitude ws /\ f64_lt (magnitude ws) (toFloat64 (dint 80)) = true) /\
         (In (Diag path ERROR (HeightTooSmall x)) (output (checkSize path doc)) <->
          x = magnitude hs /\ f64_lt (magnitude hs) (toFloat64 (dint 80)) = true)).
Proof.
  intros path doc n Hn. split; [|split].
  - intros Hw. destruct (SelectAttr_some n "height") as [hs Hh]. split.
    + rewrite (checkUnits_svg _ _ _ _ _ Hn Hw Hh). unfold unitWarnings, output, fst.
      apply in_or_app. left. vm_compute. now left.
    + intros x. rewrite (checkSize_svg _ _ _ _ _ Hn Hw Hh). unfold output at 1, fst.
      rewrite !in_app_iff. intros [H|[H|H]].
      * apply toFloat_output in H as [f Hf]. discriminate.
      * apply toFloat_output in H as [f Hf]. discriminate.
      * unfold sizeErrors in H. apply in_app_or in H as [H|H].
        -- vm_compute in H. exact H.
        -- destruct (f64_lt (magnitude hs) (toFloat64 minHeight));
             [destruct H as [H|[]]; discriminate | destruct H].
  - intros Hw Hh. rewrite (checkSize_svg _ _ _ _ _ Hn Hw Hh). vm_compute. reflexivity.
  - intros ws hs Hw Hh x. rewrite (checkSize_svg _ _ _ _ _ Hn Hw Hh).
    unfold output, fst, sizeErrors.
    change (toFloat64 minWidth) with (toFloat64 (dint 80)).
    change (toFloat64 minHeight) with (toFloat64 (dint 80)).
    rewrite !in_app_iff.
    assert (Hno : forall s l, (exists m, l = Diag path ERROR m) ->
                    ~ In l (fst (toFloat s))).
    { intros s l [m ->] H. apply toFloat_output in H as [f Hf]. discriminate. }
    split; split.
    + intros [H|[H|[H|H]]].
      * exfalso. revert H. apply Hno. eauto.
      * exfalso. revert H. apply Hno. eauto.
      * destruct (f64_lt (magnitude ws) (toFloat64 (dint 80)));
          [destruct H as [H|[]]; injection H as <-; now split | destruct H].
      * destruct (f64_lt (magnitude hs) (toFloat64 (dint 80)));
          [destruct H as [H|[]]; discriminate | destruct H].
    + intros [-> Hlt]. right. right. left. rewrite Hlt. now left.
    + intros [H|[H|[H|H]]].
      * exfalso. revert H. apply Hno. eauto.
      * exfalso. revert H. apply Hno. eauto.
      * destruct (f64_lt (magnitude ws) (toFloat64 (dint 80)));
          [destruct H as [H|[]]; discriminate | destruct H].
      * destruct (f64_lt (magnitude hs) (toFloat64 (dint 80)));
          [destruct H as [H|[]]; injection H as <-; now split | destruct H].
    + intros [-> Hlt]. right. right. right. rewrite Hlt. now left.
Qed.

Lemma C3_witness :
  let n60 := ElementNode "svg" [("width", "60"); ("height", "100")] [] in
  let n80 := ElementNode "svg" [("width", "80mm"); ("height", "80mm")] [] in
  checkSize "tiles/a.svg" (DocumentNode [n60]) =
    ([Diag "tiles/a.svg" ERROR (WidthTooSmall (toFloat64 (dint 60)))], Val tt) /\
  In (Diag "tiles/b.svg" WARNING (WidthUnits "80mm"))
     (output (checkUnits "tiles/b.svg" (DocumentNode [n80]))).
Proof.
  intros n60 n80. split.
  - exact (proj1 (proj2 (C3_size_check_on_raw_magnitude "tiles/a.svg"
                           (DocumentNode [n60]) n60 eq_refl))
                 eq_refl eq_refl).
  - exact (proj1 (proj1 (C3_size_check_on_raw_magnitude "tiles/b.svg"
                           (DocumentNode [n80]) n80 eq_refl)
                        eq_refl)).
Defined.

(** ** Spelling checks *)

Lemma innerTexts_map (nodes : list Node) : innerTexts nodes = map InnerText nodes.
Proof.
  unfold innerTexts.
  enough (H : forall acc,
             fold_left (fun acc n => acc ++ [InnerText n]) nodes acc =
             acc ++ map InnerText nodes) by apply (H []).
  induction nodes as [|n nodes IH]; intros acc; simpl.
  - now rewrite app_nil_r.
  - now rewrite IH, <- app_assoc.
Qed.

Lemma misspelled_words_of_text (accept : string -> bool) (words acc : list string) :
  fold_left (fun misspelled word =>
               if negb (accept word) then misspelled ++ [word] else misspelled)
            words acc =
  acc ++ filter (fun tok => negb (accept tok)) words.
Proof.
  revert acc. induction words as [|x words IH]; intros acc; simpl.
  - now rewrite app_nil_r.
  - rewrite IH. destruct (negb (accept x)); [now rewrite <- app_assoc | reflexivity].
Qed.

Lemma misspelledWords_rejected (accept : string -> bool) (texts : list string) :
  misspelledWords accept texts = rejectedTokens accept texts.
Proof.
  unfold misspelledWords, rejectedTokens.
  enough (H : forall acc,
             fold_left
               (fun misspelled text =>
                  if negb (String.eqb text EmptyString) then
                    fold_left
                      (fun misspelled word =>
                         if negb (accept word) then misspelled ++ [word] else misspelled)
                      (Split text " ") misspelled
                  else misspelled) texts acc =
             acc ++ filter (fun tok => negb (accept tok))
                      (flat_map (fun t => Split t " ")
                         (filter (fun t => negb (isEmptyString t)) texts)))
    by apply (H []).
  induction texts as [|t texts IH]; intros acc; simpl.
  - now rewrite app_nil_r.
  - rewrite IH. unfold isEmptyString at 2.
    destruct (String.eqb t EmptyString); simpl; [reflexivity|].
    now rewrite misspelled_words_of_text, filter_app, app_assoc.
Qed.

Lemma Split_nonempty (s : string) (sep : ascii) : Split s sep <> [].
Proof.
  destruct s as [|c s]; cbn [Split]; [discriminate|].
  destruct (Ascii.eqb c sep); [discriminate|].
  destruct (Split s sep); discriminate.
Qed.

Lemma Join_cons (a : string) (rest : list string) (sep : string) :
  rest <> [] ->
  Join (a :: rest) sep = String.append a (String.append sep (Join rest sep)).
Proof. destruct rest; [congruence | reflexivity]. Qed.

Lemma Split_Join (s : string) (sep : ascii) :
  Join (Split s sep) (String sep EmptyString) = s.
Proof.
  induction s as [|c s IH]; [reflexivity|]. cbn [Split].
  destruct (Ascii.eqb c sep) eqn:E.
  - apply Ascii.eqb_eq in E. subst c.
    rewrite Join_cons by apply Split_nonempty. rewrite IH. reflexivity.
  - destruct (Split s sep) as [|x xs] eqn:Es; [now apply Split_nonempty in Es|].
    destruct xs as [|y ys].
    + simpl in *. now subst x.
    + rewrite Join_cons by discriminate. rewrite Join_cons in IH by discriminate.
      change (String c (String.append x
                (String.append (String sep EmptyString)
                   (Join (y :: ys) (String sep EmptyString)))) = String c s).
      now rewrite IH.
Qed.

Lemma Split_tokens (s : string) (sep : ascii) (tok : string) :
  In tok (Split s sep) -> countBytes (Ascii.eqb sep) tok = 0.
Proof.
  revert tok. induction s as [|c s IH]; intros tok; cbn [Split].
  - intros [<-|[]]. reflexivity.
  - destruct (Ascii.eqb c sep) eqn:E.
    + intros [<-|H]; [reflexivity | now apply IH].
    + destruct (Split s sep) as [|x xs] eqn:Es.
      * intros [<-|[]]. simpl. rewrite Ascii.eqb_sym, E. reflexivity.
      * intros [<-|H].
        -- simpl. rewrite Ascii.eqb_sym, E. apply IH. now left.
        -- apply IH. now right.
Qed.

Lemma bind_when_print {B} (b : bool) (l : Line) (f : unit -> IO B) :
  bind (when b (print l)) f =
  ((if b then [l] else []) ++ output (f tt), result (f tt)).
Proof.
  destruct b; cbn [when]; [apply bind_print | rewrite bind_ret_l; apply io_eta].
Qed.

Lemma when_print_result (b : bool) (l : Line) : result (when b (print l)) = Val tt.
Proof. destruct b; reflexivity. Qed.

Lemma printSvg_result (doc n : Node) :
  FindOne doc "svg" = Some n -> result (printSvg doc) = Val tt.
Proof.
  intros Hn. unfold printSvg. rewrite Hn.
  destruct (SelectAttr_some n "width") as [a ->].
  destruct (SelectAttr_some n "height") as [b ->].
  destruct (SelectAttr_some n "viewBox") as [c ->].
  reflexivity.
Qed.

(** C6. A document without keyword items: the keyword-presence check writes
    its ERROR; the keyword-spelling check returns at the empty list, so with
    a speller at hand it writes nothing, and without one it writes only the
    speller's failure (never a diagnostic about the file).  In the run of the
    checks on a tile the keyword-presence ERROR is among the lines written
    (in verbose mode the tile must have an [svg] element, or the summary
    printed before the checks panics). *)
Theorem C6_no_keywords_presence_error_no_spelling_error :
  forall (w : World) (path : string) (doc : Node),
    Find doc "rdf:li" = [] ->
    checkKeywords path doc = ([Diag path ERROR KeywordsMissing], Val tt) /\
    (forall sp, NewSpeller w = inr sp ->
       checkKeywordSpelling w path doc = ([], Val tt)) /\
    (forall msg, NewSpeller w = inl msg ->
       checkKeywordSpelling w path doc =
       ([OpError "checkKeywordSpelling" (SpellerFailed (Failure msg))], Val tt)) /\
    (forall p sev m, ~ In (Diag p sev m) (output (checkKeywordSpelling w path doc))) /\
    (forall dupDir info reader,
       Ext path = ".svg" ->
       osOpen w path = inr reader ->
       parseSvg w reader = ([], Val (inr doc)) ->
       verboseFlag w = false \/ (exists n, FindOne doc "svg" = Some n) ->
       In (Diag path ERROR KeywordsMissing)
          (output (checkTilesFunc w dupDir path info None))).
Proof.
  intros w path doc Hk.
  assert (Hck : checkKeywords path doc = ([Diag path ERROR KeywordsMissing], Val tt))
    by (unfold checkKeywords; rewrite Hk; reflexivity).
  split; [exact Hck|]. split; [|split; [|split]].
  - intros sp Hsp. unfold checkKeywordSpelling. rewrite Hsp, Hk. reflexivity.
  - intros msg Hsp. unfold checkKeywordSpelling. rewrite Hsp. reflexivity.
  - intros p sev m. unfold checkKeywordSpelling. rewrite Hk.
    destruct (NewSpeller w); simpl; [intros [H|[]]; discriminate | intros []].
  - intros dupDir info reader Hext Hopen Hparse Hsvg.
    unfold checkTilesFunc. rewrite Hext. cbn [String.eqb Ascii.eqb Bool.eqb negb].
    apply (output_bind_val _ _ tt); [apply when_print_result|].
    rewrite Hopen. apply (output_bind_val _ _ (inr doc)); [now rewrite Hparse|].
    apply (output_bind_val _ _ tt).
    { destruct Hsvg as [->|[n Hn]]; [reflexivity|].
      destruct (verboseFlag w); [now apply (printSvg_result doc n) | reflexivity]. }
    apply output_bind_incl. rewrite Hck. now left.
Qed.

Lemma C6_witness :
  let doc := DocumentNode [ElementNode "svg" [("width", "100"); ("height", "100")] []] in
  let w := {| tree := fun _ => TFile;
              file := fun _ => regular "<svg/>";
              xmlParse := fun _ => inr doc;
              md5hex := fun b => b;
              NewSpeller := inr {| Check := fun _ => false |};
              verboseFlag := true |} in
  checkKeywordSpelling w "t/a.svg" doc = ([], Val tt) /\
  In (Diag "t/a.svg" ERROR KeywordsMissing)
     (output (checkTilesFunc w "ref" "t/a.svg" None None)).
Proof.
  intros doc w.
  destruct (C6_no_keywords_presence_error_no_spelling_error w "t/a.svg" doc eq_refl)
    as (_ & Hsp & _ & _ & Hrun).
  split.
  - exact (Hsp _ eq_refl).
  - refine (Hrun "ref" None (Bytes "<svg/>") eq_refl eq_refl eq_refl _).
    right. eexists. reflexivity.
Defined.

(** C8. With a speller at hand the text-run check collects, over the
    non-empty texts of the [svg:tspan] elements, the tokens between single
    spaces that the speller turns down once their slashes are removed, and
    writes nothing when there are none, and otherwise one ERROR that lists
    them (as they stand in the text) joined by [", "].  Without a speller it
    writes the speller's failure and nothing about the texts.  A token holds
    no space and the tokens joined by a space give the text back; removing
    the slashes keeps every other byte. *)
Theorem C8_text_run_spelling_one_error :
  forall (w : World) (path : string) (doc : Node),
    (forall sp,
        NewSpeller w = inr sp ->
        let rejected :=
          rejectedTokens (fun tok => Check sp (Replace tok "/"))
                         (map InnerText (Find doc "svg:tspan")) in
        checkTspanSpelling w path doc =
        (match rejected with
         | [] => []
         | _ :: _ => [Diag path ERROR (TextMisspelled (Join rejected ", "))]
         end, Val tt)) /\
    (forall msg,
        NewSpeller w = inl msg ->
        checkTspanSpelling w path doc =
        ([OpError "checkKeywordSpelling" (SpellerFailed (Failure msg))], Val tt)) /\
    (forall text, Join (Split text " ") " " = text) /\
    (forall text tok, In tok (Split text " ") -> countBytes (Ascii.eqb " ") tok = 0) /\
    (forall tok, list_ascii_of_string (Replace tok "/") =
                 filter (fun c => negb (Ascii.eqb c "/")) (list_ascii_of_string tok)).
Proof.
  intros w path doc. split; [|split; [|split; [|split]]].
  - intros sp Hsp rejected. unfold checkTspanSpelling. rewrite Hsp.
    destruct (Find doc "svg:tspan") as [|t ts] eqn:Ef.
    + reflexivity.
    + cbn [length Nat.eqb]. rewrite innerTexts_map, misspelledWords_rejected.
      fold rejected. destruct rejected; reflexivity.
  - intros msg Hsp. unfold checkTspanSpelling. now rewrite Hsp.
  - intros text. apply Split_Join.
  - intros text tok. apply Split_tokens.
  - intros tok. apply filterString_filter.
Qed.

Lemma C8_witness :
  let doc := DocumentNode
               [ElementNode "svg" []
                  [ElementNode "svg:tspan" [] [TextNode "helo/wrld ok"];
                   ElementNode "svg:tspan" [] [];
                   ElementNode "svg:tspan" [] [TextNode "o/k zzz"]]] in
  let w := {| tree := fun _ => TFile;
              file := fun _ => regular "";
              xmlParse := fun _ => inr doc;
              md5hex := fun b => b;
              NewSpeller := inr {| Check := fun s => String.eqb s "ok" |};
              verboseFlag := false |} in
  checkTspanSpelling w "t/a.svg" doc =
  ([Diag "t/a.svg" ERROR (TextMisspelled "helo/wrld, zzz")], Val tt).
Proof.
  intros doc w.
  exact (proj1 (C8_text_run_spelling_one_error w "t/a.svg" doc) _ eq_refl).
Defined.

(** ** Walking a tree *)

Lemma bind_ext {A B} (m : IO A) (f g : A -> IO B) :
  (forall a, result m = Val a -> f a = g a) -> bind m f = bind m g.
Proof.
  intros H. destruct m as [o [a|]]; simpl; [now rewrite H | reflexivity].
Qed.

Lemma bind_assoc {A B C} (m : IO A) (f : A -> IO B) (g : B -> IO C) :
  bind (bind m f) g = bind m (fun a => bind (f a) g).
Proof.
  destruct m as [o [a|]]; simpl; [|reflexivity].
  destruct (f a) as [o' [b|]]; simpl; [|reflexivity].
  destruct (g b) as [o'' r]. now rewrite app_assoc.
Qed.

Lemma bind_ret_r (m : IO (option error)) :
  bind m (fun r => match r with Some e => ret (Some e) | None => ret None end) = m.
Proof. destruct m as [o [[e|]|]]; simpl; now rewrite ?app_nil_r. Qed.

Lemma output_bind_inv {A B} (m : IO A) (f : A -> IO B) (l : Line) :
  In l (output (bind m f)) ->
  In l (output m) \/ exists a, result m = Val a /\ In l (output (f a)).
Proof.
  destruct m as [o [a|]]; simpl.
  - destruct (f a) as [o' r] eqn:E. simpl. intros H.
    apply in_app_or in H as [H|H]; [now left | right].
    exists a. rewrite E. auto.
  - now left.
Qed.

Lemma result_bind {A B} (m : IO A) (f : A -> IO B) (a : A) :
  result m = Val a -> result (bind m f) = result (f a).
Proof.
  destruct m as [o r]; simpl; intros ->. destruct (f a). reflexivity.
Qed.

Lemma result_bind_inv {A B} (m : IO A) (f : A -> IO B) (b : B) :
  result (bind m f) = Val b -> exists a, result m = Val a /\ result (f a) = Val b.
Proof.
  destruct m as [o [a|]]; simpl.
  - destruct (f a) as [o' r] eqn:E. simpl. intros ->. exists a. now rewrite E.
  - discriminate.
Qed.

Lemma Tree_induction (P : Tree -> Prop) :
  P TFile ->
  (forall msg, P (TBroken msg)) ->
  (forall readErr entries,
      Forall (fun entry => P (snd entry)) entries -> P (TDir readErr entries)) ->
  forall t, P t.
Proof.
  intros Hfile Hbroken Hdir.
  fix IH 1. intros [|readErr entries|msg].
  - exact Hfile.
  - apply Hdir. induction entries as [|[name child] rest IHrest].
    + constructor.
    + constructor; [exact (IH child) | exact IHrest].
  - apply Hbroken.
Qed.

Lemma walk_dir (fn : WalkFunc) (path : string) (entries : list (string * Tree)) :
  walk fn path (TDir None entries) =
  (err1 <- fn path (Some {| IsDir := true |}) None ;;
   match err1 with
   | None => walkNames fn path entries
   | Some _ => ret err1
   end).
Proof.
  cbn [walk option_map]. apply bind_ext. intros [e|] _; [reflexivity|].
  induction entries as [|[name child] rest IH]; [reflexivity|].
  cbn [walkNames]. now rewrite <- IH.
Qed.

Lemma walk_dir_unreadable (fn : WalkFunc) (path msg : string)
    (entries : list (string * Tree)) :
  walk fn path (TDir (Some msg) entries) =
  fn path (Some {| IsDir := true |}) (Some (Failure msg)).
Proof.
  cbn [walk option_map].
  rewrite <- (bind_ret_r (fn path (Some {| IsDir := true |}) (Some (Failure msg)))) at 2.
  apply bind_ext. intros [e|] _; reflexivity.
Qed.

Lemma visits_dir (path : string) (entries : list (string * Tree)) :
  visits path (TDir None entries) =
  {| vpath := path; vinfo := Some {| IsDir := true |}; verr := None |} ::
  visitsBelow path entries.
Proof.
  cbn [visits]. f_equal.
  induction entries as [|[name child] rest IH]; [reflexivity|].
  cbn [visitsBelow]. now rewrite <- IH.
Qed.

Lemma visits_plain (path : string) (t : Tree) :
  Forall (fun v => plainError (verr v)) (visits path t).
Proof.
  revert path. induction t as [| msg | readErr entries IH] using Tree_induction;
    intros path.
  - constructor; [|constructor]. intros e H. discriminate.
  - constructor; [|constructor]. intros e H. injection H as <-. reflexivity.
  - destruct readErr as [msg|].
    + constructor; [|constructor]. intros e H. injection H as <-. reflexivity.
    + rewrite visits_dir. constructor; [intros e H; discriminate|].
      induction entries as [|[name child] rest IHrest]; [constructor|].
      inversion IH as [|? ? Hchild Hrest]; subst. cbn [visitsBelow].
      apply Forall_app. split; [apply Hchild | now apply IHrest].
Qed.

Lemma visitAll_app (fn : WalkFunc) (pre rest : list Visit) :
  visitAll fn (pre ++ rest) =
  (r <- visitAll fn pre ;;
   match r with
   | Some e => ret (Some e)
   | None => visitAll fn rest
   end).
Proof.
  induction pre as [|v pre IH]; cbn [visitAll app].
  - now rewrite bind_ret_l.
  - rewrite bind_assoc. apply bind_ext. intros [e|] _.
    + now rewrite bind_ret_l.
    + exact IH.
Qed.

Lemma visitAll_never_skips (fn : WalkFunc) (vs : list Visit) (e : error) :
  neverSkips fn ->
  Forall (fun v => plainError (verr v)) vs ->
  result (visitAll fn vs) = Val (Some e) -> isSkip e = false.
Proof.
  intros Hfn Hvs. induction Hvs as [|v vs Hv _ IH]; cbn [visitAll].
  - discriminate.
  - intros H. apply result_bind_inv in H as (r & Hr & H). destruct r as [e'|].
    + injection H as <-. exact (Hfn _ _ _ _ Hv Hr).
    + exact (IH H).
Qed.

Lemma isSkip_isSkipDir (e : error) : isSkip e = false -> isSkipDir e = false.
Proof. destruct e; simpl; congruence. Qed.

(** A walk with a function that never asks to skip makes the visits in order
    and stops at the first error. *)
Lemma walk_visits (fn : WalkFunc) :
  neverSkips fn ->
  forall t path, walk fn path t = visitAll fn (visits path t).
Proof.
  intros Hfn. induction t as [| msg | readErr entries IH] using Tree_induction;
    intros path.
  - cbn [walk visits visitAll]. unfold visit. now rewrite bind_ret_r.
  - cbn [walk visits visitAll]. unfold visit. now rewrite bind_ret_r.
  - destruct readErr as [msg|].
    + rewrite walk_dir_unreadable. cbn [visits visitAll]. unfold visit.
      now rewrite bind_ret_r.
    + rewrite walk_dir, visits_dir. cbn [visitAll]. unfold visit at 1.
      apply bind_ext. intros [e|] _; [reflexivity|].
      induction entries as [|[name child] rest IHrest]; [reflexivity|].
      inversion IH as [|? ? Hchild Hrest]; subst. cbn [snd] in Hchild.
      cbn [walkNames visitsBelow]. rewrite visitAll_app, (IHrest Hrest), Hchild.
      unfold walkEntry. destruct child as [|readErr entries|msg].
      * reflexivity.
      * apply bind_ext. intros [e|] He; [|reflexivity].
        apply (visitAll_never_skips _ _ _ Hfn (visits_plain _ _)) in He.
        now rewrite (isSkip_isSkipDir _ He).
      * cbn [visits visitAll]. unfold visit. rewrite bind_ret_r.
        apply bind_ext. intros [e|] He; [|reflexivity].
        assert (Hp : plainError (Some (Failure msg)))
          by (intros e' H; injection H as <-; reflexivity).
        now rewrite (isSkip_isSkipDir _ (Hfn _ _ _ _ Hp He)).
Qed.

Lemma Walk_visits (w : World) (root : string) (fn : WalkFunc) :
  neverSkips fn ->
  Walk w root fn = visitAll fn (visits root (tree w root)).
Proof.
  intros Hfn. unfold Walk. rewrite (walk_visits fn Hfn).
  rewrite <- (bind_ret_r (visitAll fn (visits root (tree w root)))) at 2.
  apply bind_ext. intros [e|] He; [|reflexivity].
  now rewrite (visitAll_never_skips _ _ _ Hfn (visits_plain _ _) He).
Qed.

(** Visits that all return nil, then the rest. *)
Lemma visitAll_after (fn : WalkFunc) (pre rest : list Visit) (out : list Line) :
  visitAll fn pre = (out, Val None) ->
  visitAll fn (pre ++ rest) =
  (out ++ output (visitAll fn rest), result (visitAll fn rest)).
Proof. intros H. rewrite visitAll_app, (bind_val _ _ _ _ H). reflexivity. Qed.

(** A visit that returns an error is the last one. *)
Lemma visitAll_stops (fn : WalkFunc) (pre post : list Visit) (v : Visit)
    (out o : list Line) (e : error) :
  visitAll fn pre = (out, Val None) ->
  visit fn v = (o, Val (Some e)) ->
  visitAll fn (pre ++ v :: post) = (out ++ o, Val (Some e)).
Proof.
  intros Hpre Hv. rewrite (visitAll_after _ _ _ _ Hpre). cbn [visitAll].
  rewrite Hv. simpl. now rewrite app_nil_r.
Qed.

(** Every line written comes from a visit. *)
Lemma visitAll_output (fn : WalkFunc) (vs : list Visit) (l : Line) :
  In l (output (visitAll fn vs)) -> exists v, In v vs /\ In l (output (visit fn v)).
Proof.
  induction vs as [|v vs IH]; cbn [visitAll]; [intros []|].
  intros H. apply output_bind_inv in H as [H|(r & _ & H)].
  - exists v. split; [now left | exact H].
  - destruct r as [e|]; [destruct H|].
    destruct (IH H) as (v' & Hin & Hl). exists v'. split; [now right | exact Hl].
Qed.

(** Visits that all return nil are all made. *)
Lemma visitAll_all (fn : WalkFunc) (lines : Visit -> list Line) (vs : list Visit) :
  Forall (fun v => visit fn v = (lines v, Val None)) vs ->
  visitAll fn vs = (flat_map lines vs, Val None).
Proof.
  induction 1 as [|v vs Hv _ IH]; cbn [visitAll flat_map]; [reflexivity|].
  rewrite (bind_val _ _ _ _ Hv), IH. reflexivity.
Qed.
(** ** Duplicate detector *)

Lemma makeHash_eta (w : World) (path : string) :
  makeHash w path = (output (makeHash w path), Val (hashOf w path)).
Proof. unfold makeHash, hashOf. destruct (data (file w path)); reflexivity. Qed.

Lemma getFileSize_eta (w : World) (path : string) :
  getFileSize w path = (output (getFileSize w path), Val (sizeOf w path)).
Proof. unfold getFileSize, sizeOf. destruct (stat (file w path)); reflexivity. Qed.

Lemma makeHash_output (w : World) (path : string) (l : Line) :
  In l (output (makeHash w path)) -> exists f, l = OpError "makeHash" f.
Proof.
  unfold makeHash. destruct (data (file w path)); simpl;
    intros H; try destruct H as [<-|[]]; try destruct H; eauto.
Qed.

Lemma getFileSize_output (w : World) (path : string) (l : Line) :
  In l (output (getFileSize w path)) -> exists e, l = PrintSize path e.
Proof.
  unfold getFileSize. destruct (stat (file w path)); simpl;
    intros H; try destruct H as [<-|[]]; try destruct H; eauto.
Qed.

Lemma checkDuplicatesFunc_svg (w : World) (checkPath aHash aBasename : string)
    (aSize : Z) (path : string) (info : option FileInfo) :
  Ext path = ".svg" ->
  checkDuplicatesFunc w checkPath aHash aBasename aSize path info None =
  (matchLines w checkPath aHash aBasename aSize path, Val None).
Proof.
  intros Hext. unfold checkDuplicatesFunc, matchLines. rewrite Hext.
  cbn [String.eqb Ascii.eqb Bool.eqb negb].
  rewrite bind_when_print, (bind_val _ _ _ _ (getFileSize_eta w path)).
  rewrite bind_when_print, (bind_val _ _ _ _ (makeHash_eta w path)).
  rewrite bind_when_print. unfold output at 1 2 4 6, result. cbn [fst snd ret].
  now rewrite app_nil_r.
Qed.

Lemma checkDuplicatesFunc_other (w : World) (checkPath aHash aBasename : string)
    (aSize : Z) (path : string) (info : option FileInfo) :
  String.eqb (Ext path) ".svg" = false ->
  checkDuplicatesFunc w checkPath aHash aBasename aSize path info None = ret None.
Proof. intros Hext. unfold checkDuplicatesFunc. now rewrite Hext. Qed.

Lemma checkDuplicatesFunc_result (w : World) (checkPath aHash aBasename : string)
    (aSize : Z) (path : string) (info : option FileInfo) (err : option error) :
  result (checkDuplicatesFunc w checkPath aHash aBasename aSize path info err) = Val err.
Proof.
  destruct err as [e|]; [reflexivity|].
  destruct (String.eqb (Ext path) ".svg") eqn:E.
  - apply String.eqb_eq in E. now rewrite checkDuplicatesFunc_svg.
  - now rewrite checkDuplicatesFunc_other.
Qed.

Lemma matchLines_In (w : World) (checkPath aHash aBasename : string) (aSize : Z)
    (path : string) (l : Line) :
  In l (matchLines w checkPath aHash aBasename aSize path) <->
  (l = Diag checkPath WARNING (DuplicateName path) /\ aBasename = Base path) \/
  In l (output (getFileSize w path)) \/
  (l = Diag checkPath WARNING (DuplicateSize path) /\ aSize = sizeOf w path) \/
  In l (output (makeHash w path)) \/
  (l = Diag checkPath WARNING (DuplicateHash path) /\ aHash = hashOf w path).
Proof.
  unfold matchLines. rewrite !in_app_iff.
  assert (Hone : forall (b : bool) (x : Line) (P : Prop),
             (b = true <-> P) ->
             (In l (if b then [x] else []) <-> l = x /\ P)).
  { intros b x P HP. destruct b; simpl.
    - split; [intros [<-|[]]; split; [reflexivity | now apply HP]
             | intros [-> _]; now left].
    - split; [intros [] | intros [_ HP']; apply HP in HP'; discriminate]. }
  rewrite (Hone _ _ _ (String.eqb_eq aBasename (Base path))).
  rewrite (Hone _ _ _ (Z.eqb_eq aSize (sizeOf w path))).
  rewrite (Hone _ _ _ (String.eqb_eq aHash (hashOf w path))).
  reflexivity.
Qed.

Lemma duplicatesOf_backed (w : World) (checkPath path : string)
    (info : option FileInfo) (err : option error) (l : Line) :
  In l (output (duplicatesOf w checkPath path info err)) -> matchBacked w checkPath l.
Proof.
  unfold duplicatesOf. destruct err as [e|].
  - simpl. intros [<-|[]]. exact I.
  - destruct (String.eqb (Ext path) ".svg") eqn:E.
    + apply String.eqb_eq in E. rewrite (checkDuplicatesFunc_svg _ _ _ _ _ _ _ E).
      unfold output at 1. cbn [fst]. rewrite matchLines_In.
      intros [[-> H]|[H|[[-> H]|[H|[-> H]]]]]; simpl; auto.
      * apply getFileSize_output in H as [e ->]. exact I.
      * apply makeHash_output in H as [f ->]. exact I.
    + rewrite (checkDuplicatesFunc_other _ _ _ _ _ _ _ E). intros [].
Qed.

Lemma duplicatesOf_result (w : World) (checkPath : string) (v : Visit) :
  result (visit (duplicatesOf w checkPath) v) = Val (verr v).
Proof. apply checkDuplicatesFunc_result. Qed.

Lemma duplicatesOf_neverSkips (w : World) (checkPath : string) :
  neverSkips (duplicatesOf w checkPath).
Proof.
  intros path info err e Hplain H. unfold duplicatesOf in H.
  rewrite checkDuplicatesFunc_result in H. injection H as ->. now apply Hplain.
Qed.

Lemma duplicatesOf_scanLines (w : World) (checkPath : string) (v : Visit) :
  verr v = None ->
  visit (duplicatesOf w checkPath) v = (scanLines w checkPath v, Val None).
Proof.
  intros Hv. unfold visit, duplicatesOf, scanLines. rewrite Hv.
  destruct (String.eqb (Ext (vpath v)) ".svg") eqn:E.
  - apply String.eqb_eq in E. now apply checkDuplicatesFunc_svg.
  - now apply checkDuplicatesFunc_other.
Qed.

Lemma duplicatesOf_visitAll_result (w : World) (checkPath : string) (vs : list Visit) :
  exists r, result (visitAll (duplicatesOf w checkPath) vs) = Val r.
Proof.
  induction vs as [|v vs [r IH]]; cbn [visitAll]; [now exists None|].
  rewrite (result_bind _ _ _ (duplicatesOf_result w checkPath v)).
  destruct (verr v) as [e|]; [now exists (Some e) | now exists r].
Qed.

(** [checkDuplicates] in one piece: the lines of hashing and measuring the
    candidate, the lines of the visits, and the closing report when a visit
    returned an error.  It always returns. *)
Lemma checkDuplicates_eta (w : World) (checkPath dupDir : string) (node : Node) :
  let scan := visitAll (duplicatesOf w checkPath) (visits dupDir (tree w dupDir)) in
  exists r,
    result scan = Val r /\
    checkDuplicates w checkPath dupDir node =
    (output (makeHash w checkPath) ++ output (getFileSize w checkPath) ++
     output scan ++
     match r with
     | Some e => [OpError "checkDuplicates" (UnableWalk dupDir e)]
     | None => []
     end, Val tt).
Proof.
  intros scan.
  destruct (duplicatesOf_visitAll_result w checkPath (visits dupDir (tree w dupDir)))
    as [r Hr].
  exists r. split; [exact Hr|].
  unfold checkDuplicates. rewrite (bind_val _ _ _ _ (makeHash_eta w checkPath)).
  rewrite (bind_val _ _ _ _ (getFileSize_eta w checkPath)).
  fold (duplicatesOf w checkPath).
  rewrite (Walk_visits _ _ _ (duplicatesOf_neverSkips w checkPath)). fold scan.
  assert (E : scan = (output scan, Val r)) by (rewrite <- Hr; apply io_eta).
  rewrite (bind_val _ _ _ _ E).
  unfold output at 2 4, result at 1 2. cbn [fst snd].
  destruct r as [e|]; reflexivity.
Qed.

Lemma checkDuplicates_backed (w : World) (checkPath dupDir : string) (node : Node)
    (l : Line) :
  In l (output (checkDuplicates w checkPath dupDir node)) -> matchBacked w checkPath l.
Proof.
  destruct (checkDuplicates_eta w checkPath dupDir node) as (r & _ & ->).
  unfold output at 1. cbn [fst]. rewrite !in_app_iff. intros [H|[H|[H|H]]].
  - apply makeHash_output in H as [f ->]. exact I.
  - apply getFileSize_output in H as [e ->]. exact I.
  - apply visitAll_output in H as (v & _ & H). revert H. apply duplicatesOf_backed.
  - destruct r as [e|]; [destruct H as [<-|[]]; exact I | destruct H].
Qed.

(** A visit the scan gets to: what is written at it is part of what
    [checkDuplicates] writes. *)
Lemma checkDuplicates_reaches (w : World) (checkPath dupDir : string) (node : Node)
    (pre post : list Visit) (v : Visit) (out : list Line) (l : Line) :
  visits dupDir (tree w dupDir) = pre ++ v :: post ->
  visitAll (duplicatesOf w checkPath) pre = (out, Val None) ->
  In l (output (visit (duplicatesOf w checkPath) v)) ->
  In l (output (checkDuplicates w checkPath dupDir node)).
Proof.
  intros Hvs Hpre Hl.
  destruct (checkDuplicates_eta w checkPath dupDir node) as (r & _ & ->).
  unfold output at 1. cbn [fst]. rewrite !in_app_iff. right. right. left.
  rewrite Hvs, (visitAll_after _ _ _ _ Hpre).
  unfold output at 1. cbn [fst]. apply in_or_app. right.
  cbn [visitAll]. now apply output_bind_incl.
Qed.

(** A visit that carries an error is the last one of the scan. *)
Lemma checkDuplicates_stops (w : World) (checkPath dupDir : string) (node : Node)
    (pre post : list Visit) (v : Visit) (out : list Line) (e : error) :
  visits dupDir (tree w dupDir) = pre ++ v :: post ->
  visitAll (duplicatesOf w checkPath) pre = (out, Val None) ->
  verr v = Some e ->
  checkDuplicates w checkPath dupDir node =
  (output (makeHash w checkPath) ++ output (getFileSize w checkPath) ++ out ++
   [OpError "checkDuplicates" (UnableAccess (vpath v) e);
    OpError "checkDuplicates" (UnableWalk dupDir e)], Val tt).
Proof.
  intros Hvs Hpre Hv.
  assert (Hvisit : visit (duplicatesOf w checkPath) v =
                   ([OpError "checkDuplicates" (UnableAccess (vpath v) e)],
                    Val (Some e))).
  { unfold visit, duplicatesOf. rewrite Hv. reflexivity. }
  destruct (checkDuplicates_eta w checkPath dupDir node) as (r & Hr & ->).
  rewrite Hvs, (visitAll_stops _ _ _ _ _ _ _ Hpre Hvisit) in *.
  simpl in Hr. injection Hr as <-.
  unfold output at 3. cbn [fst]. now rewrite <- !app_assoc.
Qed.

(** A reference tree without traversal errors is scanned to the end. *)
Lemma checkDuplicates_whole_tree (w : World) (checkPath dupDir : string) (node : Node) :
  Forall (fun v => verr v = None) (visits dupDir (tree w dupDir)) ->
  checkDuplicates w checkPath dupDir node =
  (output (makeHash w checkPath) ++ output (getFileSize w checkPath) ++
   flat_map (scanLines w checkPath) (visits dupDir (tree w dupDir)), Val tt).
Proof.
  intros Hvs.
  destruct (checkDuplicates_eta w checkPath dupDir node) as (r & Hr & ->).
  assert (E : visitAll (duplicatesOf w checkPath) (visits dupDir (tree w dupDir)) =
              (flat_map (scanLines w checkPath) (visits dupDir (tree w dupDir)),
               Val None)).
  { apply visitAll_all. rewrite Forall_forall in *. intros v Hin.
    exact (duplicatesOf_scanLines _ _ _ (Hvs _ Hin)). }
  rewrite E in *. simpl in Hr. injection Hr as <-.
  unfold output at 3. cbn [fst]. now rewrite app_nil_r.
Qed.

Ltac not_a_match H :=
  first
    [ apply getFileSize_output in H as [? H]; discriminate H
    | apply makeHash_output in H as [? H]; discriminate H
    | destruct H as [H _]; discriminate H ].

Lemma matchLines_axes (w : World) (checkPath aHash aBasename : string) (aSize : Z)
    (path : string) :
  let lines := matchLines w checkPath aHash aBasename aSize path in
  (In (Diag checkPath WARNING (DuplicateName path)) lines <-> aBasename = Base path) /\
  (In (Diag checkPath WARNING (DuplicateSize path)) lines <-> aSize = sizeOf w path) /\
  (In (Diag checkPath WARNING (DuplicateHash path)) lines <-> aHash = hashOf w path).
Proof.
  cbv zeta. rewrite !matchLines_In. repeat split.
  - intros [[_ H]|[H|[H|[H|H]]]]; [exact H | not_a_match H ..].
  - intros H. left. now split.
  - intros [H|[H|[[_ H]|[H|H]]]];
      [not_a_match H | not_a_match H | exact H | not_a_match H | not_a_match H].
  - intros H. right. right. left. now split.
  - intros [H|[H|[H|[H|[_ H]]]]]; [not_a_match H .. | exact H].
  - intros H. right. right. right. right. now split.
Qed.

Lemma regular_hashOf (w : World) (path b : string) :
  file w path = regular b -> hashOf w path = md5hex w b.
Proof. unfold hashOf. now intros ->. Qed.

Lemma regular_sizeOf (w : World) (path b : string) :
  file w path = regular b -> sizeOf w path = Z.of_nat (String.length b).
Proof. unfold sizeOf. now intros ->. Qed.

Lemma same_bytes_other_name (w : World) (checkPath path b : string)
    (info : option FileInfo) :
  file w checkPath = regular b -> file w path = regular b ->
  Base checkPath <> Base path -> Ext path = ".svg" ->
  duplicatesOf w checkPath path info None =
  ([Diag checkPath WARNING (DuplicateSize path);
    Diag checkPath WARNING (DuplicateHash path)], Val None).
Proof.
  intros Hc Hp Hbase Hext. unfold duplicatesOf.
  rewrite (checkDuplicatesFunc_svg _ _ _ _ _ _ _ Hext). unfold matchLines.
  rewrite (regular_hashOf _ _ _ Hc), (regular_hashOf _ _ _ Hp).
  rewrite (regular_sizeOf _ _ _ Hc), (regular_sizeOf _ _ _ Hp).
  rewrite Z.eqb_refl, String.eqb_refl.
  apply String.eqb_neq in Hbase. rewrite Hbase.
  unfold getFileSize, makeHash. rewrite Hp. reflexivity.
Qed.

(** C9. The function of the duplicate detector passes over every path whose
    extension is not exactly [.svg]; for a path with that extension it
    decides the three matches one by one, each on its own equality, so any
    subset of the three lines can be written for one reference file.  For a
    candidate and a reference file with the same bytes and different base
    names it writes the size match and the hash match and no name match, and
    so does [checkDuplicates] when its scan gets to that file, at whatever
    depth of the reference tree.  Every match line [checkDuplicates] writes
    is backed by its equality on a [.svg] path, and on a tree without
    traversal errors it writes the lines of every visit. *)
Theorem C9_three_independent_match_axes :
  forall (w : World) (checkPath : string),
    (forall aHash aBasename aSize path info,
        String.eqb (Ext path) ".svg" = false ->
        checkDuplicatesFunc w checkPath aHash aBasename aSize path info None =
        ([], Val None)) /\
    String.eqb (Ext "ref/tile.SVG") ".svg" = false /\
    String.eqb (Ext "ref/tile.svgz") ".svg" = false /\
    (forall aHash aBasename aSize path info,
        Ext path = ".svg" ->
        let run := checkDuplicatesFunc w checkPath aHash aBasename aSize path info None in
        result run = Val None /\
        (In (Diag checkPath WARNING (DuplicateName path)) (output run) <->
           aBasename = Base path) /\
        (In (Diag checkPath WARNING (DuplicateSize path)) (output run) <->
           aSize = sizeOf w path) /\
        (In (Diag checkPath WARNING (DuplicateHash path)) (output run) <->
           aHash = hashOf w path)) /\
    (forall b path info,
        file w checkPath = regular b -> file w path = regular b ->
        Base checkPath <> Base path -> Ext path = ".svg" ->
        duplicatesOf w checkPath path info None =
        ([Diag checkPath WARNING (DuplicateSize path);
          Diag checkPath WARNING (DuplicateHash path)], Val None)) /\
    (forall dupDir node l,
        In l (output (checkDuplicates w checkPath dupDir node)) ->
        matchBacked w checkPath l) /\
    (forall dupDir node pre v post out b,
        visits dupDir (tree w dupDir) = pre ++ v :: post ->
        visitAll (duplicatesOf w checkPath) pre = (out, Val None) ->
        verr v = None ->
        file w checkPath = regular b ->
        file w (vpath v) = regular b ->
        Base checkPath <> Base (vpath v) ->
        Ext (vpath v) = ".svg" ->
        let lines := output (checkDuplicates w checkPath dupDir node) in
        In (Diag checkPath WARNING (DuplicateSize (vpath v))) lines /\
        In (Diag checkPath WARNING (DuplicateHash (vpath v))) lines /\
        ~ In (Diag checkPath WARNING (DuplicateName (vpath v))) lines) /\
    (forall dupDir node,
        Forall (fun v => verr v = None) (visits dupDir (tree w dupDir)) ->
        checkDuplicates w checkPath dupDir node =
        (output (makeHash w checkPath) ++ output (getFileSize w checkPath) ++
         flat_map (scanLines w checkPath) (visits dupDir (tree w dupDir)), Val tt)).
Proof.
  intros w checkPath.
  split; [intros; now apply checkDuplicatesFunc_other|].
  split; [reflexivity|]. split; [reflexivity|].
  split.
  { intros aHash aBasename aSize path info Hext. cbv zeta.
    rewrite (checkDuplicatesFunc_svg _ _ _ _ _ _ _ Hext).
    split; [reflexivity|]. apply matchLines_axes. }
  split; [intros b path info Hc Hp Hb He;
          exact (same_bytes_other_name w checkPath path b info Hc Hp Hb He)|].
  split; [intros dupDir node l; apply checkDuplicates_backed|].
  split; [|intros dupDir node; apply checkDuplicates_whole_tree].
  intros dupDir node pre v post out b Hvs Hpre Hv Hc Hp Hbase Hext. cbv zeta.
  assert (Hrun : visit (duplicatesOf w checkPath) v =
                 ([Diag checkPath WARNING (DuplicateSize (vpath v));
                   Diag checkPath WARNING (DuplicateHash (vpath v))], Val None)).
  { unfold visit. rewrite Hv.
    exact (same_bytes_other_name w checkPath _ b _ Hc Hp Hbase Hext). }
  split; [|split].
  - apply (checkDuplicates_reaches _ _ _ _ _ _ _ _ _ Hvs Hpre).
    rewrite Hrun. now left.
  - apply (checkDuplicates_reaches _ _ _ _ _ _ _ _ _ Hvs Hpre).
    rewrite Hrun. right. now left.
  - intros H. apply checkDuplicates_backed in H. simpl in H.
    now destruct H as (_ & H & _).
Qed.

Lemma C9_witness :
  let lines := output (checkDuplicates nestedWorld "tiles/new.svg" "ref"
                                       (DocumentNode [])) in
  In (Diag "tiles/new.svg" WARNING (DuplicateSize "ref/2019/old.svg")) lines /\
  In (Diag "tiles/new.svg" WARNING (DuplicateHash "ref/2019/old.svg")) lines /\
  ~ In (Diag "tiles/new.svg" WARNING (DuplicateName "ref/2019/old.svg")) lines.
Proof.
  destruct (C9_three_independent_match_axes nestedWorld "tiles/new.svg")
    as (_ & _ & _ & _ & _ & _ & H & _).
  refine (H "ref" (DocumentNode [])
            [{| vpath := "ref"; vinfo := Some {| IsDir := true |}; verr := None |};
             {| vpath := "ref/2019"; vinfo := Some {| IsDir := true |}; verr := None |}]
            {| vpath := "ref/2019/old.svg"; vinfo := Some {| IsDir := false |};
               verr := None |}
            [{| vpath := "ref/notes.txt"; vinfo := Some {| IsDir := false |};
                verr := None |}]
            [] "<svg/>" eq_refl eq_refl eq_refl eq_refl eq_refl _ eq_refl).
  vm_compute. discriminate.
Defined.

Lemma hashingFails_hashOf (w : World) (path : string) :
  hashingFails w path -> hashOf w path = EmptyString.
Proof.
  unfold hashingFails, hashOf. destruct (data (file w path)); [reflexivity ..|intros []].
Qed.

Lemma hashingFails_reported (w : World) (path : string) :
  hashingFails w path -> exists f, output (makeHash w path) = [OpError "makeHash" f].
Proof.
  unfold hashingFails, makeHash. destruct (data (file w path)); intros H;
    [eexists; reflexivity .. | destruct H].
Qed.

(** C10. A failed hash is the empty string and a failed stat is the size 0,
    and the comparisons are made with these values all the same: when hashing
    fails for the candidate and for a reference file, the hash match is
    written for that file, and when both sizes are 0, the size match is,
    by the function and by [checkDuplicates] when its scan gets to the
    file. *)
Theorem C10_failed_hash_and_size_still_compared :
  forall (w : World),
    (forall path msg, data (file w path) = OpenFails msg ->
        makeHash w path =
        ([OpError "makeHash" (UnableOpen path (Failure msg))], Val EmptyString)) /\
    (forall path msg, data (file w path) = ReadFails msg ->
        makeHash w path =
        ([OpError "makeHash" (UnableHash path (Failure msg))], Val EmptyString)) /\
    (forall path msg, stat (file w path) = inl msg ->
        getFileSize w path = ([PrintSize path (Failure msg)], Val 0%Z)) /\
    (forall checkPath path info,
        Ext path = ".svg" -> hashingFails w checkPath -> hashingFails w path ->
        In (Diag checkPath WARNING (DuplicateHash path))
           (output (duplicatesOf w checkPath path info None))) /\
    (forall checkPath path info,
        Ext path = ".svg" -> sizeOf w checkPath = 0%Z -> sizeOf w path = 0%Z ->
        In (Diag checkPath WARNING (DuplicateSize path))
           (output (duplicatesOf w checkPath path info None))) /\
    (forall checkPath dupDir node pre v post out,
        visits dupDir (tree w dupDir) = pre ++ v :: post ->
        visitAll (duplicatesOf w checkPath) pre = (out, Val None) ->
        verr v = None ->
        Ext (vpath v) = ".svg" ->
        (hashingFails w checkPath -> hashingFails w (vpath v) ->
         In (Diag checkPath WARNING (DuplicateHash (vpath v)))
            (output (checkDuplicates w checkPath dupDir node))) /\
        (sizeOf w checkPath = 0%Z -> sizeOf w (vpath v) = 0%Z ->
         In (Diag checkPath WARNING (DuplicateSize (vpath v)))
            (output (checkDuplicates w checkPath dupDir node)))).
Proof.
  intros w.
  assert (Hhash : forall checkPath path info,
             Ext path = ".svg" -> hashingFails w checkPath -> hashingFails w path ->
             In (Diag checkPath WARNING (DuplicateHash path))
                (output (duplicatesOf w checkPath path info None))).
  { intros checkPath path info Hext Hc Hp. unfold duplicatesOf.
    rewrite (checkDuplicatesFunc_svg _ _ _ _ _ _ _ Hext).
    apply matchLines_axes.
    now rewrite (hashingFails_hashOf _ _ Hc), (hashingFails_hashOf _ _ Hp). }
  assert (Hsize : forall checkPath path info,
             Ext path = ".svg" -> sizeOf w checkPath = 0%Z -> sizeOf w path = 0%Z ->
             In (Diag checkPath WARNING (DuplicateSize path))
                (output (duplicatesOf w checkPath path info None))).
  { intros checkPath path info Hext Hc Hp. unfold duplicatesOf.
    rewrite (checkDuplicatesFunc_svg _ _ _ _ _ _ _ Hext).
    apply matchLines_axes. congruence. }
  split; [intros path msg H; unfold makeHash; now rewrite H|].
  split; [intros path msg H; unfold makeHash; now rewrite H|].
  split; [intros path msg H; unfold getFileSize; now rewrite H|].
  split; [exact Hhash|]. split; [exact Hsize|].
  intros checkPath dupDir node pre v post out Hvs Hpre Hv Hext. split.
  - intros Hc Hp. apply (checkDuplicates_reaches _ _ _ _ _ _ _ _ _ Hvs Hpre).
    unfold visit. rewrite Hv. now apply Hhash.
  - intros Hc Hp. apply (checkDuplicates_reaches _ _ _ _ _ _ _ _ _ Hvs Hpre).
    unfold visit. rewrite Hv. now apply Hsize.
Qed.

Lemma C10_witness :
  let lines := output (checkDuplicates brokenWorld "tiles/new.svg" "ref"
                                       (DocumentNode [])) in
  In (Diag "tiles/new.svg" WARNING (DuplicateHash "ref/old.svg")) lines /\
  In (Diag "tiles/new.svg" WARNING (DuplicateSize "ref/old.svg")) lines.
Proof.
  destruct (C10_failed_hash_and_size_still_compared brokenWorld)
    as (_ & _ & _ & _ & _ & H).
  destruct (H "tiles/new.svg" "ref" (DocumentNode [])
              [{| vpath := "ref"; vinfo := Some {| IsDir := true |}; verr := None |}]
              {| vpath := "ref/old.svg"; vinfo := Some {| IsDir := false |};
                 verr := None |}
              [] [] eq_refl eq_refl eq_refl eq_refl) as [Hh Hs].
  split; [exact (Hh I I) | exact (Hs eq_refl eq_refl)].
Defined.

(** ** Errors during the scan of the reference tree *)

(** C2 (amended). A reference file that cannot be hashed or measured is
    reported and does not stop the scan: the function returns nil for it (its
    matches are still decided, with the empty hash and the size 0) and the
    scan goes on with the next visit.  A traversal error is different: the
    function returns the error it is handed, so an entry whose [Lstat] fails,
    or a directory that cannot be listed, ends the scan; the entries after it
    are not looked at, and [checkDuplicates] reports the walk as failed and
    returns. *)
Theorem C2_hash_errors_continue_traversal_errors_stop :
  forall (w : World) (checkPath : string),
    (forall aHash aBasename aSize path info,
        result (checkDuplicatesFunc w checkPath aHash aBasename aSize path info None) =
        Val None) /\
    (forall path info,
        Ext path = ".svg" -> hashingFails w path ->
        exists f,
          In (OpError "makeHash" f) (output (duplicatesOf w checkPath path info None))) /\
    (forall path info msg,
        Ext path = ".svg" -> stat (file w path) = inl msg ->
        In (PrintSize path (Failure msg))
           (output (duplicatesOf w checkPath path info None))) /\
    (forall v rest,
        verr v = None ->
        let fn := duplicatesOf w checkPath in
        visitAll fn (v :: rest) =
        (scanLines w checkPath v ++ output (visitAll fn rest),
         result (visitAll fn rest))) /\
    (forall dupDir node pre v post out e,
        visits dupDir (tree w dupDir) = pre ++ v :: post ->
        visitAll (duplicatesOf w checkPath) pre = (out, Val None) ->
        verr v = Some e ->
        checkDuplicates w checkPath dupDir node =
        (output (makeHash w checkPath) ++ output (getFileSize w checkPath) ++ out ++
         [OpError "checkDuplicates" (UnableAccess (vpath v) e);
          OpError "checkDuplicates" (UnableWalk dupDir e)], Val tt)).
Proof.
  intros w checkPath. split; [|split; [|split; [|split]]].
  - intros. apply checkDuplicatesFunc_result.
  - intros path info Hext Hfail.
    destruct (hashingFails_reported _ _ Hfail) as [f Hf]. exists f.
    unfold duplicatesOf. rewrite (checkDuplicatesFunc_svg _ _ _ _ _ _ _ Hext).
    unfold output at 1. cbn [fst]. apply matchLines_In.
    right. right. right. left. rewrite Hf. now left.
  - intros path info msg Hext Hstat.
    unfold duplicatesOf. rewrite (checkDuplicatesFunc_svg _ _ _ _ _ _ _ Hext).
    unfold output at 1. cbn [fst]. apply matchLines_In.
    right. left. unfold getFileSize. rewrite Hstat. now left.
  - intros v rest Hv fn. cbn [visitAll].
    now rewrite (bind_val _ _ _ _ (duplicatesOf_scanLines w checkPath v Hv)).
  - intros dupDir node pre v post out e. apply checkDuplicates_stops.
Qed.

Lemma C2_witness :
  checkDuplicates refWorld "tiles/b.svg" "ref" (DocumentNode []) =
  ([OpError "checkDuplicates" (UnableAccess "ref/a.svg" (Failure "permission denied"));
    OpError "checkDuplicates" (UnableWalk "ref" (Failure "permission denied"))],
   Val tt).
Proof.
  destruct (C2_hash_errors_continue_traversal_errors_stop refWorld "tiles/b.svg")
    as (_ & _ & _ & _ & H).
  exact (H "ref" (DocumentNode [])
           [{| vpath := "ref"; vinfo := Some {| IsDir := true |}; verr := None |}]
           {| vpath := "ref/a.svg"; vinfo := None;
              verr := Some (Failure "permission denied") |}
           [{| vpath := "ref/b.svg"; vinfo := Some {| IsDir := false |};
               verr := None |}]
           [] (Failure "permission denied") eq_refl eq_refl eq_refl).
Defined.

(** C2 as stated fails: the reference tree holds an entry that cannot be
    reached ([a.svg]) before a file ([b.svg]) that matches the candidate on
    all three counts.  Had the scan gone on, the matches of [b.svg] would be
    in the report; the scan ends at [a.svg] and none of them is. *)
Lemma C2_counterexample :
  output (duplicatesOf refWorld "tiles/b.svg" "ref/b.svg"
                       (Some {| IsDir := false |}) None) =
    [Diag "tiles/b.svg" WARNING (DuplicateName "ref/b.svg");
     Diag "tiles/b.svg" WARNING (DuplicateSize "ref/b.svg");
     Diag "tiles/b.svg" WARNING (DuplicateHash "ref/b.svg")] /\
  forall m,
    ~ In (Diag "tiles/b.svg" WARNING m)
         (output (checkDuplicates refWorld "tiles/b.svg" "ref" (DocumentNode []))).
Proof.
  split; [vm_compute; reflexivity|].
  intros m H. vm_compute in H. destruct H as [H|[H|[]]]; discriminate.
Qed.

(** ** Errors during the walk of the check tree *)

Lemma checkTilesFunc_other (w : World) (dupDir path : string) (info : option FileInfo) :
  String.eqb (Ext path) ".svg" = false ->
  checkTilesFunc w dupDir path info None = ret None.
Proof. intros Hext. unfold checkTilesFunc. now rewrite Hext. Qed.

Lemma checkTilesFunc_error (w : World) (dupDir path : string) (info : option FileInfo)
    (e : error) :
  checkTilesFunc w dupDir path info (Some e) =
  ([OpError "checkTiles" (UnableAccessPath path e)], Val (Some e)).
Proof. reflexivity. Qed.

Lemma checkTilesFunc_open_fails (w : World) (dupDir path msg : string)
    (info : option FileInfo) :
  Ext path = ".svg" ->
  data (file w path) = OpenFails msg ->
  checkTilesFunc w dupDir path info None =
  (traceLine w path ++ [OpError "checkTiles" (UnableOpen path (Failure msg))],
   Val (Some (Failure msg))).
Proof.
  intros Hext Hdata. unfold checkTilesFunc, osOpen, traceLine. rewrite Hext, Hdata.
  cbn [String.eqb Ascii.eqb Bool.eqb negb].
  rewrite bind_when_print, bind_print. reflexivity.
Qed.

Lemma parseSvg_fails (w : World) (reader : FileData) (msg : string) :
  (reader = ReadFails msg \/ exists b, reader = Bytes b /\ xmlParse w b = inl msg) ->
  parseSvg w reader =
  ([OpError "parseSvg" (CouldNotParse (Failure msg))], Val (inl (Failure msg))).
Proof.
  unfold parseSvg. intros [->|(b & -> & ->)]; reflexivity.
Qed.

Lemma checkTilesFunc_parse_fails (w : World) (dupDir path msg : string)
    (info : option FileInfo) :
  Ext path = ".svg" ->
  (data (file w path) = ReadFails msg \/
   exists b, data (file w path) = Bytes b /\ xmlParse w b = inl msg) ->
  checkTilesFunc w dupDir path info None =
  (traceLine w path ++ [OpError "parseSvg" (CouldNotParse (Failure msg))],
   Val (Some (Failure msg))).
Proof.
  intros Hext Hdata. unfold checkTilesFunc, traceLine. rewrite Hext.
  cbn [String.eqb Ascii.eqb Bool.eqb negb]. rewrite bind_when_print.
  assert (Hopen : osOpen w path = inr (data (file w path))).
  { unfold osOpen. destruct Hdata as [->|(b & -> & _)]; reflexivity. }
  rewrite Hopen, (bind_val _ _ _ _ (parseSvg_fails w _ msg Hdata)). reflexivity.
Qed.

(** The errors the function of [checkTiles] returns are the one it is handed,
    the one of [os.Open] and the one of the parser. *)
Lemma checkTilesFunc_neverSkips (w : World) (dupDir : string) :
  neverSkips (checkTilesFunc w dupDir).
Proof.
  intros path info err e Hplain H. unfold checkTilesFunc in H.
  destruct err as [e'|].
  - simpl in H. injection H as <-. now apply Hplain.
  - destruct (negb (String.eqb (Ext path) ".svg")); [discriminate|].
    apply result_bind_inv in H as (? & _ & H).
    destruct (osOpen w path) as [e'|reader] eqn:Eopen.
    + simpl in H. injection H as <-. unfold osOpen in Eopen.
      destruct (data (file w path)); inversion Eopen. reflexivity.
    + apply result_bind_inv in H as (parsed & Hparsed & H).
      destruct parsed as [e'|rootNode].
      * simpl in H. injection H as <-. unfold parseSvg in Hparsed.
        match type of Hparsed with
        | context [match ?x with inl _ => _ | inr _ => _ end] => destruct x
        end; inversion Hparsed. reflexivity.
      * do 8 (apply result_bind_inv in H as (? & _ & H)). discriminate.
Qed.

Lemma checkTiles_stops (w : World) (checkDir dupDir : string)
    (pre post : list Visit) (v : Visit) (out o : list Line) (e : error) :
  visits checkDir (tree w checkDir) = pre ++ v :: post ->
  visitAll (checkTilesFunc w dupDir) pre = (out, Val None) ->
  visit (checkTilesFunc w dupDir) v = (o, Val (Some e)) ->
  checkTiles w checkDir dupDir =
  (out ++ o ++ [OpError "checkTiles" (UnableWalk checkDir e)], Val (Some e)).
Proof.
  intros Hvs Hpre Hv. unfold checkTiles.
  rewrite (Walk_visits _ _ _ (checkTilesFunc_neverSkips w dupDir)), Hvs.
  rewrite (visitAll_stops _ _ _ _ _ _ _ Hpre Hv). simpl.
  now rewrite <- app_assoc.
Qed.

(** C1 (amended). A traversal-level error ends the walk of the check tree,
    and so does an error of one file: when a tile cannot be opened, or its
    XML cannot be parsed, the failure is reported, the function handed to the
    walk returns the error, the entries after that file are not visited, and
    [checkTiles] reports the walk as failed and returns the error. *)
Theorem C1_file_error_ends_the_walk :
  forall (w : World) (checkDir dupDir : string) (pre post : list Visit) (v : Visit)
         (out : list Line),
    visits checkDir (tree w checkDir) = pre ++ v :: post ->
    visitAll (checkTilesFunc w dupDir) pre = (out, Val None) ->
    (forall e,
        verr v = Some e ->
        checkTiles w checkDir dupDir =
        (out ++
         [OpError "checkTiles" (UnableAccessPath (vpath v) e);
          OpError "checkTiles" (UnableWalk checkDir e)], Val (Some e))) /\
    (forall msg,
        verr v = None -> Ext (vpath v) = ".svg" ->
        data (file w (vpath v)) = OpenFails msg ->
        checkTiles w checkDir dupDir =
        (out ++ traceLine w (vpath v) ++
         [OpError "checkTiles" (UnableOpen (vpath v) (Failure msg));
          OpError "checkTiles" (UnableWalk checkDir (Failure msg))],
         Val (Some (Failure msg)))) /\
    (forall msg,
        verr v = None -> Ext (vpath v) = ".svg" ->
        (data (file w (vpath v)) = ReadFails msg \/
         exists b, data (file w (vpath v)) = Bytes b /\ xmlParse w b = inl msg) ->
        checkTiles w checkDir dupDir =
        (out ++ traceLine w (vpath v) ++
         [OpError "parseSvg" (CouldNotParse (Failure msg));
          OpError "checkTiles" (UnableWalk checkDir (Failure msg))],
         Val (Some (Failure msg)))).
Proof.
  intros w checkDir dupDir pre post v out Hvs Hpre. split; [|split].
  - intros e Hv.
    apply (checkTiles_stops _ _ _ _ _ _ _
             [OpError "checkTiles" (UnableAccessPath (vpath v) e)] e Hvs Hpre).
    unfold visit. rewrite Hv. apply checkTilesFunc_error.
  - intros msg Hv Hext Hdata.
    rewrite (checkTiles_stops _ _ _ _ _ _ _ _ _ Hvs Hpre
               (eq_trans (f_equal _ Hv)
                         (checkTilesFunc_open_fails w dupDir _ msg _ Hext Hdata))).
    now rewrite <- !app_assoc.
  - intros msg Hv Hext Hdata.
    rewrite (checkTiles_stops _ _ _ _ _ _ _ _ _ Hvs Hpre
               (eq_trans (f_equal _ Hv)
                         (checkTilesFunc_parse_fails w dupDir _ msg _ Hext Hdata))).
    now rewrite <- !app_assoc.
Qed.

Lemma C1_witness :
  checkTiles tileWorld "tiles" "ref" =
  ([OpError "checkTiles" (UnableOpen "tiles/a.svg" (Failure "permission denied"));
    OpError "checkTiles" (UnableWalk "tiles" (Failure "permission denied"))],
   Val (Some (Failure "permission denied"))).
Proof.
  destruct (C1_file_error_ends_the_walk tileWorld "tiles" "ref"
              [{| vpath := "tiles"; vinfo := Some {| IsDir := true |}; verr := None |}]
              [{| vpath := "tiles/b.svg"; vinfo := Some {| IsDir := false |};
                  verr := None |}]
              {| vpath := "tiles/a.svg"; vinfo := Some {| IsDir := false |};
                 verr := None |}
              [] eq_refl eq_refl) as (_ & Hopen & _).
  exact (Hopen "permission denied" eq_refl eq_refl eq_refl).
Defined.

(** C1 as stated fails: [a.svg] cannot be opened and [b.svg] after it is a
    sound tile without keywords.  A walk that went on would visit [b.svg] and
    report its missing keywords; the walk ends at [a.svg], nothing is written
    about [b.svg], and [checkTiles] returns the error of [a.svg]. *)
Lemma C1_counterexample :
  In (Diag "tiles/b.svg" ERROR KeywordsMissing)
     (output (checkTilesFunc tileWorld "ref" "tiles/b.svg"
                             (Some {| IsDir := false |}) None)) /\
  (forall sev m,
      ~ In (Diag "tiles/b.svg" sev m) (output (checkTiles tileWorld "tiles" "ref"))) /\
  result (checkTiles tileWorld "tiles" "ref") =
    Val (Some (Failure "permission denied")).
Proof.
  split; [vm_compute; now left|]. split; [|vm_compute; reflexivity].
  intros sev m H. vm_compute in H. destruct H as [H|[H|[]]]; discriminate.
Qed.

(** The schema-bound variant walks the check tree in the same way. *)
Lemma Decode_checkTilesFunc_neverSkips (w : World) (xmlDecode : string -> string + Decode.Svg) :
  neverSkips (Decode.checkTilesFunc w xmlDecode).
Proof.
  intros path info err e Hplain H. unfold Decode.checkTilesFunc in H.
  destruct err as [e'|].
  - simpl in H. injection H as <-. now apply Hplain.
  - destruct (negb (String.eqb (Ext path) ".svg")); [discriminate|].
    apply result_bind_inv in H as (? & _ & H).
    destruct (osOpen w path) as [e'|reader] eqn:Eopen.
    + simpl in H. injection H as <-. unfold osOpen in Eopen.
      destruct (data (file w path)); inversion Eopen. reflexivity.
    + apply result_bind_inv in H as (parsed & Hparsed & H).
      destruct parsed as [e'|svg].
      * simpl in H. injection H as <-. unfold Decode.parseSvg in Hparsed.
        match type of Hparsed with
        | context [match ?x with inl _ => _ | inr _ => _ end] => destruct x
        end; inversion Hparsed. reflexivity.
      * do 7 (apply result_bind_inv in H as (? & _ & H)). discriminate.
Qed.

Lemma Decode_checkTiles_file_error_ends_the_walk
    (w : World) (xmlDecode : string -> string + Decode.Svg)
    (checkDir dupDir : string) (pre post : list Visit) (v : Visit)
    (out : list Line) (msg : string) :
  visits checkDir (tree w checkDir) = pre ++ v :: post ->
  visitAll (Decode.checkTilesFunc w xmlDecode) pre = (out, Val None) ->
  verr v = None -> Ext (vpath v) = ".svg" ->
  (data (file w (vpath v)) = OpenFails msg ->
   Decode.checkTiles w xmlDecode checkDir dupDir =
   (out ++ traceLine w (vpath v) ++
    [OpError "checkTiles" (UnableOpen (vpath v) (Failure msg));
     OpError "checkTiles" (UnableWalk checkDir (Failure msg))],
    Val (Some (Failure msg)))) /\
  ((data (file w (vpath v)) = ReadFails msg \/
    exists b, data (file w (vpath v)) = Bytes b /\ xmlDecode b = inl msg) ->
   Decode.checkTiles w xmlDecode checkDir dupDir =
   (out ++ traceLine w (vpath v) ++
    [OpError "parseSvg" (CouldNotParse (Failure msg));
     OpError "checkTiles" (UnableWalk checkDir (Failure msg))],
    Val (Some (Failure msg)))).
Proof.
  intros Hvs Hpre Hv Hext.
  assert (Hstop : forall o,
             visit (Decode.checkTilesFunc w xmlDecode) v =
               (traceLine w (vpath v) ++ [o], Val (Some (Failure msg))) ->
             Decode.checkTiles w xmlDecode checkDir dupDir =
             (out ++ traceLine w (vpath v) ++
              [o; OpError "checkTiles" (UnableWalk checkDir (Failure msg))],
              Val (Some (Failure msg)))).
  { intros o Ho. unfold Decode.checkTiles.
    rewrite (Walk_visits _ _ _ (Decode_checkTilesFunc_neverSkips w xmlDecode)), Hvs.
    rewrite (visitAll_stops _ _ _ _ _ _ _ Hpre Ho). simpl.
    now rewrite <- !app_assoc. }
  split; intros Hdata; apply Hstop; unfold visit, Decode.checkTilesFunc, traceLine;
    rewrite Hv, Hext; cbn [String.eqb Ascii.eqb Bool.eqb negb];
    rewrite bind_when_print.
  - unfold osOpen. rewrite Hdata, bind_print. reflexivity.
  - assert (Hopen : osOpen w (vpath v) = inr (data (file w (vpath v)))).
    { unfold osOpen. destruct Hdata as [->|(b & -> & _)]; reflexivity. }
    assert (Hparse : Decode.parseSvg xmlDecode (data (file w (vpath v))) =
                     ([OpError "parseSvg" (CouldNotParse (Failure msg))],
                      Val (inl (Failure msg)))).
    { unfold Decode.parseSvg. destruct Hdata as [->|(b & -> & ->)]; reflexivity. }
    rewrite Hopen, (bind_val _ _ _ _ Hparse). reflexivity.
Qed.

(** ** Identifier check *)

(** C7. The two variants differ on an identifier element that is there and
    empty.  The schema-bound variant tests the decoded string and writes the
    ERROR exactly when it is empty.  The xmlquery variant tests whether the
    element exists, so it writes the ERROR exactly when the element is absent
    and nothing for the empty element. *)
Theorem C7_identifier_empty_element_not_reported :
  (forall path svg,
      Decode.checkIdentifier path svg =
      (if isEmptyString (Decode.identifierOf svg)
       then [Diag path ERROR IdentifierMissing] else [], Val tt)) /\
  (forall path node,
      checkIdentifier path node =
      (match FindOne node "dc:identifier" with
       | None => [Diag path ERROR IdentifierMissing]
       | Some _ => []
       end, Val tt)) /\
  FindOne emptyIdentifierTile "dc:identifier" = Some emptyIdentifier /\
  InnerText emptyIdentifier = EmptyString /\
  (forall path, checkIdentifier path emptyIdentifierTile = ([], Val tt)) /\
  (forall path,
      Decode.checkIdentifier path emptyIdentifierSvg =
      ([Diag path ERROR IdentifierMissing], Val tt)).
Proof.
  split; [|split; [|split; [|split; [|split]]]]; try reflexivity.
  - intros path svg. unfold Decode.checkIdentifier, isEmptyString.
    destruct (String.eqb (Decode.identifierOf svg) EmptyString); reflexivity.
  - intros path node. unfold checkIdentifier.
    destruct (FindOne node "dc:identifier"); reflexivity.
Qed.

(** The schema-bound variant's text-run check is a stub: it writes the two
    counts and never looks at a word. *)
Lemma Decode_checkTspanSpelling_counts (path : string) (svg : Decode.Svg) :
  Decode.checkTspanSpelling path svg =
  ([TextCounts path (length (Decode.Texts svg)) (length (Decode.GroupedTexts svg))],
   Val tt).
Proof. reflexivity. Qed.

(** * Further properties *)

(** ** Units and sizes *)

Lemma unit_test_is_hasUnit (s : string) :
  f64_ne (getUnitConversion s) (toFloat64 (dint 1)) = hasUnit s.
Proof.
  rewrite getUnitConversion_table.
  unfold unitMultiplier, hasUnit, unitTable, unitSuffixes. cbn [find existsb fst].
  repeat match goal with
         | |- context [endsWith s ?u] => destruct (endsWith s u)
         end; vm_compute; reflexivity.
Qed.

(** X1. The unit check warns about a dimension exactly when it ends in one of
    the seven unit suffixes: none of the seven multipliers is 1.0, so the
    test [u != 1.0] is the test for a suffix.  A dimension in [px], in [%] or
    without a unit raises no warning. *)
Theorem X1_checkUnits_warns_iff_unit_suffix :
  forall (path : string) (doc n : Node) (ws hs : string),
    FindOne doc "svg" = Some n ->
    SelectAttr (Some n) "width" = ret ws ->
    SelectAttr (Some n) "height" = ret hs ->
    checkUnits path doc =
    ((if hasUnit ws then [Diag path WARNING (WidthUnits ws)] else []) ++
     (if hasUnit hs then [Diag path WARNING (HeightUnits hs)] else []), Val tt).
Proof.
  intros path doc n ws hs Hn Hw Hh. rewrite (checkUnits_svg _ _ _ _ _ Hn Hw Hh).
  unfold unitWarnings. now rewrite !unit_test_is_hasUnit.
Qed.

Lemma X1_witness :
  checkUnits "t/a.svg" unitsTile = ([Diag "t/a.svg" WARNING (WidthUnits "10cm")], Val tt).
Proof.
  exact (X1_checkUnits_warns_iff_unit_suffix "t/a.svg" unitsTile
           (ElementNode "svg" [("width", "10cm"); ("height", "120")] [])
           "10cm" "120" eq_refl eq_refl eq_refl).
Defined.

Lemma lookupAttr_missing (attrs : list (string * string)) (key : string) :
  (forall v, ~ In (key, v) attrs) -> lookupAttr attrs key = EmptyString.
Proof.
  induction attrs as [|[k v] attrs IH]; intros H; cbn [lookupAttr]; [reflexivity|].
  destruct (String.eqb k key) eqn:E.
  - apply String.eqb_eq in E. subst k. exfalso. apply (H v). now left.
  - apply IH. intros v' Hin. apply (H v'). now right.
Qed.

(** X2. A dimension without a numeral (no digit, two dots, or the attribute
    missing altogether, which reads as the empty string) is reported twice by
    the size check: as a conversion failure, and, the value being 0, as too
    small. *)
Theorem X2_checkSize_dimension_without_numeral :
  forall (path : string) (doc : Node) (name : string)
         (attrs : list (string * string)) (kids : list Node),
    FindOne doc "svg" = Some (ElementNode name attrs kids) ->
    let ws := lookupAttr attrs "width" in
    let hs := lookupAttr attrs "height" in
    let lines := output (checkSize path doc) in
    result (checkSize path doc) = Val tt /\
    (isNumeral (ReplaceAllNonNumeric ws) = false ->
       In (OpError "toFloat" (UnableConvert ws (ErrSyntax (ReplaceAllNonNumeric ws)))) lines /\
       In (Diag path ERROR (WidthTooSmall (S754_zero false))) lines) /\
    (isNumeral (ReplaceAllNonNumeric hs) = false ->
       In (OpError "toFloat" (UnableConvert hs (ErrSyntax (ReplaceAllNonNumeric hs)))) lines /\
       In (Diag path ERROR (HeightTooSmall (S754_zero false))) lines) /\
    ((forall v, ~ In ("width", v) attrs) -> ws = EmptyString) /\
    ((forall v, ~ In ("height", v) attrs) -> hs = EmptyString).
Proof.
  intros path doc name attrs kids Hn ws hs lines.
  assert (E : checkSize path doc =
              (output (toFloat ws) ++ output (toFloat hs) ++ sizeErrors path ws hs, Val tt))
    by (apply (checkSize_svg _ _ _ _ _ Hn); reflexivity).
  unfold lines. rewrite E. unfold output at 1 2 5 6, result. cbn [fst snd].
  split; [reflexivity|].
  assert (Hmag : forall s, isNumeral (ReplaceAllNonNumeric s) = false ->
                   magnitude s = S754_zero false).
  { intros s Hs. unfold magnitude. rewrite ParseFloat_value.
    apply readFloat_numeral in Hs. now rewrite Hs. }
  split; [|split; [|split]].
  - intros Hw. split.
    + apply in_or_app. left. rewrite (toFloat_not_numeral _ Hw). now left.
    + apply in_or_app. right. apply in_or_app. right. unfold sizeErrors.
      apply in_or_app. left. rewrite (Hmag _ Hw). now left.
  - intros Hh. split.
    + apply in_or_app. right. apply in_or_app. left.
      rewrite (toFloat_not_numeral _ Hh). now left.
    + apply in_or_app. right. apply in_or_app. right. unfold sizeErrors.
      apply in_or_app. right. rewrite (Hmag _ Hh). now left.
  - apply lookupAttr_missing.
  - apply lookupAttr_missing.
Qed.

Lemma X2_witness :
  In (OpError "toFloat" (UnableConvert EmptyString (ErrSyntax EmptyString)))
     (output (checkSize "t/a.svg" bareTile)) /\
  In (Diag "t/a.svg" ERROR (WidthTooSmall (S754_zero false)))
     (output (checkSize "t/a.svg" bareTile)).
Proof.
  destruct (X2_checkSize_dimension_without_numeral "t/a.svg" bareTile "svg"
              [("height", "12 px")] [] eq_refl) as (_ & Hw & _).
  exact (Hw eq_refl).
Defined.

(** ** The value of [toFloat] *)

Lemma shr_1_nonneg (mrs : shr_record) :
  (0 <= shr_m mrs)%Z -> (0 <= shr_m (shr_1 mrs))%Z.
Proof.
  destruct mrs as [m r s]. destruct m as [|p|p]; [|destruct p|destruct p];
    simpl; lia.
Qed.

Lemma iter_shr_1_nonneg (p : positive) : forall mrs,
  (0 <= shr_m mrs)%Z -> (0 <= shr_m (iter_pos shr_1 p mrs))%Z.
Proof.
  induction p as [p IH|p IH|]; intros mrs H; cbn [iter_pos].
  - apply IH, IH, shr_1_nonneg, H.
  - apply IH, IH, H.
  - apply shr_1_nonneg, H.
Qed.

Lemma shr_fexp_nonneg (m e : Z) (l : location) :
  (0 <= m)%Z -> (0 <= shr_m (fst (shr_fexp prec emax m e l)))%Z.
Proof.
  intros Hm. unfold shr_fexp, shr.
  assert (H0 : (0 <= shr_m (shr_record_of_loc m l))%Z)
    by (destruct l as [|[| |]]; exact Hm).
  destruct (fexp prec emax (Zdigits2 m + e) - e)%Z; cbn [fst]; try exact H0.
  now apply iter_shr_1_nonneg.
Qed.

Lemma round_nearest_even_nonneg (m : Z) (l : location) :
  (0 <= m)%Z -> (0 <= round_nearest_even m l)%Z.
Proof.
  intros Hm. unfold round_nearest_even.
  destruct l as [|[| |]]; try destruct (Z.even m); lia.
Qed.

Lemma binary_round_aux_nonNegative (m e : Z) (l : location) :
  (0 <= m)%Z -> nonNegative (binary_round_aux prec emax false m e l).
Proof.
  intros Hm. unfold binary_round_aux.
  pose proof (shr_fexp_nonneg m e l Hm) as H1.
  destruct (shr_fexp prec emax m e l) as [mrs' e']. cbn [fst] in H1.
  pose proof (shr_fexp_nonneg _ e' loc_Exact
                (round_nearest_even_nonneg _ (loc_of_shr_record mrs') H1)) as H2.
  destruct (shr_fexp prec emax
              (round_nearest_even (shr_m mrs') (loc_of_shr_record mrs')) e' loc_Exact)
    as [mrs'' e'']. cbn [fst] in H2.
  destruct (shr_m mrs'') as [|p|p]; [exact I| |lia].
  destruct (Z.leb e'' (emax - prec)); exact I.
Qed.

Lemma toFloat64_nonNegative (d : decimal) :
  (0 <= mant d)%Z -> nonNegative (toFloat64 d).
Proof.
  intros Hd. unfold toFloat64. destruct (mant d) as [|m|m]; [exact I| |lia].
  unfold SFdiv, SFdiv_core_binary. cbn [xorb].
  set (den := Z.to_pos (10 ^ Z.of_nat (scale d))).
  match goal with
  | |- context [Z.div_eucl ?a ?b] =>
      pose proof (Z.div_pos a b) as Hq; unfold Z.div in Hq;
      destruct (Z.div_eucl a b) as [q r] eqn:E
  end.
  apply binary_round_aux_nonNegative. apply Hq; [|lia].
  match goal with
  | |- (0 <= match ?s with Z0 => _ | Zpos _ => _ | Zneg _ => _ end)%Z =>
      destruct s; [lia | apply Z.shiftl_nonneg; lia | lia]
  end.
Qed.

Lemma readFloat_mant_nonneg (s : string) : forall sawdot sawdigits m frac d,
  readFloat s sawdot sawdigits m frac = Some d -> (0 <= m)%Z -> (0 <= mant d)%Z.
Proof.
  induction s as [|c s IH]; intros sawdot sawdigits m frac d; cbn [readFloat].
  - destruct sawdigits; [|discriminate]. intros H. injection H as <-. auto.
  - destruct (isDot c).
    + destruct sawdot; [discriminate|]. apply IH.
    + destruct (isDigit c); [|discriminate].
      intros H Hm. apply (IH _ _ _ _ _ H). lia.
Qed.

(** X3. Whatever the string, the value of [toFloat] is zero, a positive
    number or plus infinity: never negative and never a NaN, because every
    byte but digits and dots is deleted before parsing.  A minus sign in a
    dimension is lost. *)
Theorem X3_toFloat_never_negative :
  forall s : string,
    result (toFloat s) = Val (magnitude s) /\ nonNegative (magnitude s) /\
    magnitude (String "-" s) = magnitude s.
Proof.
  intros s. split; [apply toFloat_result|]. split.
  - unfold magnitude. rewrite ParseFloat_value.
    destruct (readFloat (ReplaceAllNonNumeric s) false false 0 0) as [d|] eqn:E;
      [|exact I].
    apply toFloat64_nonNegative. apply (readFloat_mant_nonneg _ _ _ _ _ _ E). lia.
  - reflexivity.
Qed.

Lemma toFloat_quiet_iff (s : string) :
  output (toFloat s) = [] <->
  isNumeral (ReplaceAllNonNumeric s) = true /\ isInfinity (magnitude s) = false.
Proof.
  unfold magnitude, toFloat.
  pose proof (readFloat_numeral (ReplaceAllNonNumeric s)) as Hnum.
  unfold ParseFloat.
  destruct (readFloat (ReplaceAllNonNumeric s) false false 0 0) as [d|] eqn:E.
  - assert (Hn : isNumeral (ReplaceAllNonNumeric s) = true).
    { destruct (isNumeral (ReplaceAllNonNumeric s)); [reflexivity|].
      destruct Hnum as [_ H]. discriminate (H eq_refl). }
    rewrite Hn. destruct (toFloat64 d) as [sg|sg| |sg m e] eqn:Ef; cbn;
      try tauto.
    split; [discriminate | intros [_ H]; discriminate].
  - destruct Hnum as [Hnum _]. rewrite (Hnum eq_refl). cbn.
    split; [discriminate | intros [H _]; discriminate].
Qed.

(** X4. [toFloat] writes nothing exactly when what is left after the deletion
    is a numeral whose value does not overflow; otherwise it writes one
    conversion failure, about the string as it was given. *)
Theorem X4_toFloat_reports_iff_not_a_finite_numeral :
  forall s : string,
    (output (toFloat s) = [] <->
     isNumeral (ReplaceAllNonNumeric s) = true /\ isInfinity (magnitude s) = false) /\
    (output (toFloat s) <> [] ->
     exists e, output (toFloat s) = [OpError "toFloat" (UnableConvert s e)]).
Proof.
  intros s. split; [apply toFloat_quiet_iff|].
  unfold toFloat. destruct (ParseFloat (ReplaceAllNonNumeric s)) as [f [e|]]; cbn.
  - intros _. now exists e.
  - intros H. now contradiction H.
Qed.

Lemma X4_witness :
  exists e, output (toFloat "wide") = [OpError "toFloat" (UnableConvert "wide" e)].
Proof.
  apply (proj2 (X4_toFloat_reports_iff_not_a_finite_numeral "wide")).
  vm_compute. discriminate.
Defined.

(** X5. Bytes that are neither digits nor dots count for nothing wherever
    they stand: the digits around them are read as one numeral.  So an
    exponent, a thousands separator or a blank changes the number read:
    ["1e3"] is 13 and ["1,000"] is 1000. *)
Theorem X5_toFloat_glues_digits :
  forall a u b : string,
    allBytes (fun c => negb (isNumericByte c)) u = true ->
    magnitude (String.append a (String.append u b)) = magnitude (String.append a b) /\
    (output (toFloat (String.append a (String.append u b))) = [] <->
     output (toFloat (String.append a b)) = []).
Proof.
  intros a u b Hu.
  assert (E : ReplaceAllNonNumeric (String.append a (String.append u b)) =
              ReplaceAllNonNumeric (String.append a b)).
  { unfold ReplaceAllNonNumeric.
    change (fun c => isDigit c || isDot c) with isNumericByte.
    now rewrite !filterString_append, (filterString_none _ _ Hu). }
  assert (Hm : magnitude (String.append a (String.append u b)) =
               magnitude (String.append a b))
    by (unfold magnitude; now rewrite E).
  split; [exact Hm|].
  rewrite !toFloat_quiet_iff. now rewrite E, Hm.
Qed.

Lemma X5_witness :
  magnitude "1e3" = toFloat64 (dint 13) /\ magnitude "1,000" = toFloat64 (dint 1000).
Proof.
  split.
  - exact (eq_trans (proj1 (X5_toFloat_glues_digits "1" "e" "3" eq_refl)) eq_refl).
  - exact (eq_trans (proj1 (X5_toFloat_glues_digits "1" "," "000" eq_refl)) eq_refl).
Defined.

(** ** Keyword spelling *)

Lemma rejectedTokens_In (accept : string -> bool) (texts : list string) (tok : string) :
  In tok (rejectedTokens accept texts) <->
  exists text, In text texts /\ text <> EmptyString /\
               In tok (Split text " ") /\ accept tok = false.
Proof.
  unfold rejectedTokens. rewrite filter_In, in_flat_map. split.
  - intros [(text & Ht & Htok) Hacc]. apply filter_In in Ht as [Ht Hne].
    exists text. repeat split; auto.
    + intros ->. discriminate.
    + now apply negb_true_iff.
  - intros (text & Ht & Hne & Htok & Hacc). split.
    + exists text. split; [|exact Htok]. apply filter_In. split; [exact Ht|].
      apply negb_true_iff. unfold isEmptyString. now apply String.eqb_neq.
    + now apply negb_true_iff.
Qed.

(** X6. With a speller at hand the keyword-spelling check collects, over the
    non-empty texts of the [rdf:li] elements and in document order, the
    tokens between single spaces that the speller turns down (as they stand:
    no byte is removed), and writes nothing when there are none and otherwise
    one ERROR that lists them joined by [", "].  A token is listed exactly if
    it is a token of a non-empty keyword and the speller rejects it.  Without
    a speller the check writes the speller's failure and nothing else. *)
Theorem X6_keyword_spelling_one_error :
  forall (w : World) (path : string) (doc : Node),
    (forall sp,
        NewSpeller w = inr sp ->
        let rejected := rejectedTokens (Check sp) (map InnerText (Find doc "rdf:li")) in
        checkKeywordSpelling w path doc =
        (match rejected with
         | [] => []
         | _ :: _ => [Diag path ERROR (KeywordsMisspelled (Join rejected ", "))]
         end, Val tt) /\
        forall tok,
          In tok rejected <->
          exists node, In node (Find doc "rdf:li") /\ InnerText node <> EmptyString /\
                       In tok (Split (InnerText node) " ") /\ Check sp tok = false) /\
    (forall msg,
        NewSpeller w = inl msg ->
        checkKeywordSpelling w path doc =
        ([OpError "checkKeywordSpelling" (SpellerFailed (Failure msg))], Val tt)).
Proof.
  intros w path doc. split.
  - intros sp Hsp rejected. split.
    + unfold checkKeywordSpelling. rewrite Hsp.
      destruct (Find doc "rdf:li") as [|t ts] eqn:Ef; [reflexivity|].
      cbn [length Nat.eqb]. rewrite innerTexts_map, misspelledWords_rejected.
      fold rejected. destruct rejected; reflexivity.
    + intros tok. unfold rejected. rewrite rejectedTokens_In. split.
      * intros (text & Ht & Hne & Htok & Hacc).
        apply in_map_iff in Ht as (node & <- & Hnode). eauto.
      * intros (node & Hnode & Hne & Htok & Hacc).
        exists (InnerText node). split; [now apply in_map|auto].
  - intros msg Hsp. unfold checkKeywordSpelling. now rewrite Hsp.
Qed.

Lemma X6_witness :
  checkKeywordSpelling wallWorld "t/a.svg" keywordsTile =
  ([Diag "t/a.svg" ERROR (KeywordsMisspelled "walll")], Val tt).
Proof.
  exact (proj1 (proj1 (X6_keyword_spelling_one_error wallWorld "t/a.svg" keywordsTile)
                      _ eq_refl)).
Defined.

(** ** More on the duplicate detector *)

Lemma self_match_lines (w : World) (path : string) (info : option FileInfo) :
  Ext path = ".svg" ->
  let lines := output (duplicatesOf w path path info None) in
  In (Diag path WARNING (DuplicateName path)) lines /\
  In (Diag path WARNING (DuplicateSize path)) lines /\
  In (Diag path WARNING (DuplicateHash path)) lines.
Proof.
  intros Hext. cbv zeta. unfold duplicatesOf.
  rewrite (checkDuplicatesFunc_svg _ _ _ _ _ _ _ Hext). unfold output at 1 2 3.
  cbn [fst]. repeat split; now apply matchLines_axes.
Qed.

(** X7. A candidate that lies in the reference tree matches itself: when the
    scan gets to the candidate's own path, the name, the size and the hash
    match are all written, whatever the state of the file (even if it can be
    neither measured nor hashed).  Nothing excludes the candidate from its
    own scan. *)
Theorem X7_candidate_matches_itself :
  forall (w : World) (checkPath dupDir : string) (node : Node)
         (pre post : list Visit) (v : Visit) (out : list Line),
    visits dupDir (tree w dupDir) = pre ++ v :: post ->
    visitAll (duplicatesOf w checkPath) pre = (out, Val None) ->
    verr v = None -> vpath v = checkPath -> Ext checkPath = ".svg" ->
    let lines := output (checkDuplicates w checkPath dupDir node) in
    In (Diag checkPath WARNING (DuplicateName checkPath)) lines /\
    In (Diag checkPath WARNING (DuplicateSize checkPath)) lines /\
    In (Diag checkPath WARNING (DuplicateHash checkPath)) lines.
Proof.
  intros w checkPath dupDir node pre post v out Hvs Hpre Hv Hp Hext. cbv zeta.
  destruct (self_match_lines w checkPath (vinfo v) Hext) as (Hn & Hs & Hh).
  repeat split; apply (checkDuplicates_reaches _ _ _ _ _ _ _ _ _ Hvs Hpre);
    unfold visit; rewrite Hv, Hp; assumption.
Qed.

Lemma X7_witness :
  let lines := output (checkDuplicates sharedWorld "tiles/a.svg" "tiles"
                                       (DocumentNode [])) in
  In (Diag "tiles/a.svg" WARNING (DuplicateName "tiles/a.svg")) lines /\
  In (Diag "tiles/a.svg" WARNING (DuplicateSize "tiles/a.svg")) lines /\
  In (Diag "tiles/a.svg" WARNING (DuplicateHash "tiles/a.svg")) lines.
Proof.
  exact (X7_candidate_matches_itself sharedWorld "tiles/a.svg" "tiles" (DocumentNode [])
           [{| vpath := "tiles"; vinfo := Some {| IsDir := true |}; verr := None |}]
           []
           {| vpath := "tiles/a.svg"; vinfo := Some {| IsDir := false |}; verr := None |}
           [] eq_refl eq_refl eq_refl eq_refl eq_refl).
Defined.

(** X8. A reference tree that is walked without error and holds no path with
    the extension [.svg] gives no match line: [checkDuplicates] writes only
    what hashing and measuring the candidate itself writes (nothing, for a
    readable candidate), reports no failure and returns. *)
Theorem X8_reference_tree_without_tiles :
  forall (w : World) (checkPath dupDir : string) (node : Node),
    Forall (fun v => verr v = None /\ String.eqb (Ext (vpath v)) ".svg" = false)
           (visits dupDir (tree w dupDir)) ->
    checkDuplicates w checkPath dupDir node =
      (output (makeHash w checkPath) ++ output (getFileSize w checkPath), Val tt) /\
    (forall b, file w checkPath = regular b ->
               checkDuplicates w checkPath dupDir node = ([], Val tt)).
Proof.
  intros w checkPath dupDir node Hvs.
  assert (E : checkDuplicates w checkPath dupDir node =
              (output (makeHash w checkPath) ++ output (getFileSize w checkPath),
               Val tt)).
  { rewrite checkDuplicates_whole_tree
      by (eapply Forall_impl; [|exact Hvs]; now intros v [Hv _]).
    assert (Hnone : flat_map (scanLines w checkPath) (visits dupDir (tree w dupDir)) = []).
    { induction Hvs as [|v vs [_ Hv] _ IH]; [reflexivity|].
      cbn [flat_map]. unfold scanLines at 1. now rewrite Hv, IH. }
    now rewrite Hnone, app_nil_r. }
  split; [exact E|].
  intros b Hb. rewrite E. unfold makeHash, getFileSize. rewrite Hb. reflexivity.
Qed.

Lemma X8_witness :
  checkDuplicates notesWorld "tiles/a.svg" "ref" (DocumentNode []) = ([], Val tt).
Proof.
  refine (proj2 (X8_reference_tree_without_tiles notesWorld "tiles/a.svg" "ref"
                   (DocumentNode []) _) "<svg/>" eq_refl).
  repeat constructor.
Defined.

(** X9. Matching is symmetric: for two [.svg] paths, the name (size, hash)
    match is written for [b] when [a] is the candidate exactly if it is
    written for [a] when [b] is the candidate. *)
Theorem X9_matches_are_symmetric :
  forall (w : World) (a b : string) (info info' : option FileInfo),
    Ext a = ".svg" -> Ext b = ".svg" ->
    let ab := output (duplicatesOf w a b info None) in
    let ba := output (duplicatesOf w b a info' None) in
    (In (Diag a WARNING (DuplicateName b)) ab <-> In (Diag b WARNING (DuplicateName a)) ba) /\
    (In (Diag a WARNING (DuplicateSize b)) ab <-> In (Diag b WARNING (DuplicateSize a)) ba) /\
    (In (Diag a WARNING (DuplicateHash b)) ab <-> In (Diag b WARNING (DuplicateHash a)) ba).
Proof.
  intros w a b info info' Ha Hb. cbv zeta. unfold duplicatesOf.
  rewrite (checkDuplicatesFunc_svg _ _ _ _ _ _ _ Ha).
  rewrite (checkDuplicatesFunc_svg _ _ _ _ _ _ _ Hb).
  unfold output at 1 2 3 4 5 6. cbn [fst].
  destruct (matchLines_axes w a (hashOf w a) (Base a) (sizeOf w a) b) as (N1 & S1 & H1).
  destruct (matchLines_axes w b (hashOf w b) (Base b) (sizeOf w b) a) as (N2 & S2 & H2).
  rewrite N1, N2, S1, S2, H1, H2. repeat split; intros H; now symmetry.
Qed.

Lemma X9_witness :
  In (Diag "ref/a.svg" WARNING (DuplicateHash "tiles/b.svg"))
     (output (duplicatesOf notesWorld "ref/a.svg" "tiles/b.svg" None None)).
Proof.
  apply (proj2 (proj2 (X9_matches_are_symmetric notesWorld "tiles/b.svg" "ref/a.svg"
                         None None eq_refl eq_refl))).
  vm_compute. right. now left.
Defined.

(** ** The visit of a tile and the whole run *)

Lemma eta_tt (m : IO unit) : result m = Val tt -> m = (output m, Val tt).
Proof. intros <-. apply io_eta. Qed.

Lemma bind_tt {B} (m : IO unit) (f : unit -> IO B) :
  result m = Val tt -> bind m f = (output m ++ output (f tt), result (f tt)).
Proof. intros H. exact (bind_val _ _ _ _ (eta_tt m H)). Qed.

Lemma checkKeywords_result (path : string) (doc : Node) :
  result (checkKeywords path doc) = Val tt.
Proof. unfold checkKeywords. apply when_print_result. Qed.

Lemma checkIdentifier_result (path : string) (doc : Node) :
  result (checkIdentifier path doc) = Val tt.
Proof. unfold checkIdentifier. destruct (FindOne doc "dc:identifier"); reflexivity. Qed.

Lemma checkKeywordSpelling_result (w : World) (path : string) (doc : Node) :
  result (checkKeywordSpelling w path doc) = Val tt.
Proof.
  unfold checkKeywordSpelling. destruct (NewSpeller w); [reflexivity|].
  destruct (length (Find doc "rdf:li") =? 0)%nat; [reflexivity|].
  apply when_print_result.
Qed.

Lemma checkTspanSpelling_result (w : World) (path : string) (doc : Node) :
  result (checkTspanSpelling w path doc) = Val tt.
Proof.
  unfold checkTspanSpelling. destruct (NewSpeller w); [reflexivity|].
  destruct (length (Find doc "svg:tspan") =? 0)%nat; [reflexivity|].
  apply when_print_result.
Qed.

Lemma checkDuplicates_result (w : World) (checkPath dupDir : string) (node : Node) :
  result (checkDuplicates w checkPath dupDir node) = Val tt.
Proof. destruct (checkDuplicates_eta w checkPath dupDir node) as (r & _ & ->). reflexivity. Qed.

Lemma checkSize_result (path : string) (doc n : Node) :
  FindOne doc "svg" = Some n -> result (checkSize path doc) = Val tt.
Proof.
  intros Hn. destruct (SelectAttr_some n "width") as [ws Hw].
  destruct (SelectAttr_some n "height") as [hs Hh].
  now rewrite (checkSize_svg _ _ _ _ _ Hn Hw Hh).
Qed.

Lemma checkUnits_result (path : string) (doc n : Node) :
  FindOne doc "svg" = Some n -> result (checkUnits path doc) = Val tt.
Proof.
  intros Hn. destruct (SelectAttr_some n "width") as [ws Hw].
  destruct (SelectAttr_some n "height") as [hs Hh].
  now rewrite (checkUnits_svg _ _ _ _ _ Hn Hw Hh).
Qed.

Lemma tileOf_open_parse (w : World) (path : string) (doc : Node) :
  tileOf w path = Some doc ->
  exists reader, osOpen w path = inr reader /\ parseSvg w reader = ret (inr doc).
Proof.
  unfold tileOf, osOpen, parseSvg. destruct (data (file w path)) as [m|m|b];
    try discriminate.
  destruct (xmlParse w b) as [m|d] eqn:E; [discriminate|].
  intros H. injection H as ->. exists (Bytes b). rewrite E. split; reflexivity.
Qed.

Lemma checkTilesFunc_sound_tile (w : World) (dupDir path : string)
    (info : option FileInfo) (doc n : Node) :
  Ext path = ".svg" -> tileOf w path = Some doc -> FindOne doc "svg" = Some n ->
  checkTilesFunc w dupDir path info None = (tileLines w dupDir path doc, Val None).
Proof.
  intros Hext Htile Hn.
  destruct (tileOf_open_parse _ _ _ Htile) as (reader & Hopen & Hparse).
  unfold checkTilesFunc, tileLines, traceLine. rewrite Hext.
  cbn [String.eqb Ascii.eqb Bool.eqb negb]. rewrite bind_when_print.
  rewrite Hopen, Hparse, bind_ret_l.
  assert (Hv : result (when (verboseFlag w) (printSvg doc)) = Val tt)
    by (destruct (verboseFlag w); [exact (printSvg_result doc n Hn) | reflexivity]).
  rewrite (bind_tt _ _ Hv).
  rewrite (bind_tt _ _ (checkKeywords_result path doc)).
  rewrite (bind_tt _ _ (checkSize_result path doc n Hn)).
  rewrite (bind_tt _ _ (checkUnits_result path doc n Hn)).
  rewrite (bind_tt _ _ (checkIdentifier_result path doc)).
  rewrite (bind_tt _ _ (checkKeywordSpelling_result w path doc)).
  rewrite (bind_tt _ _ (checkTspanSpelling_result w path doc)).
  rewrite (bind_tt _ _ (checkDuplicates_result w path dupDir doc)).
  unfold output at 1 2 4 6 8 10 12 14 16 18, result. cbn [fst snd ret].
  rewrite app_nil_r. destruct (verboseFlag w); reflexivity.
Qed.

(** X10. The visit of a sound tile (it opens, parses, and has an [svg]
    element) runs all seven checks, in the order keywords, size, units,
    identifier, keyword spelling, text spelling, duplicates, and returns nil
    whatever the checks found: its lines are the lines of each check one
    after the other, none suppressed by another, after the trace and the
    summary in verbose mode. *)
Theorem X10_sound_tile_runs_every_check_in_order :
  forall (w : World) (dupDir path b : string) (info : option FileInfo) (doc n : Node),
    Ext path = ".svg" ->
    data (file w path) = Bytes b -> xmlParse w b = inr doc ->
    FindOne doc "svg" = Some n ->
    checkTilesFunc w dupDir path info None =
    (traceLine w path ++
     (if verboseFlag w then output (printSvg doc) else []) ++
     output (checkKeywords path doc) ++
     output (checkSize path doc) ++
     output (checkUnits path doc) ++
     output (checkIdentifier path doc) ++
     output (checkKeywordSpelling w path doc) ++
     output (checkTspanSpelling w path doc) ++
     output (checkDuplicates w path dupDir doc), Val None).
Proof.
  intros w dupDir path b info doc n Hext Hdata Hparse Hn.
  apply (checkTilesFunc_sound_tile w dupDir path info doc n Hext); [|exact Hn].
  unfold tileOf. now rewrite Hdata, Hparse.
Qed.

Lemma X10_witness :
  checkTilesFunc twoTilesWorld "ref" "tiles/a.svg" None None =
  ([Diag "tiles/a.svg" ERROR KeywordsMissing], Val None).
Proof.
  exact (X10_sound_tile_runs_every_check_in_order twoTilesWorld "ref" "tiles/a.svg"
           "<svg/>" None plainTile _ eq_refl eq_refl eq_refl eq_refl).
Defined.

Lemma soundVisit_lines (w : World) (dupDir : string) (v : Visit) :
  soundVisit w v ->
  visit (checkTilesFunc w dupDir) v = (visitLines w dupDir v, Val None).
Proof.
  intros [Hv Hsvg]. unfold visit, visitLines. rewrite Hv.
  destruct (String.eqb (Ext (vpath v)) ".svg") eqn:E.
  - apply String.eqb_eq in E. destruct (Hsvg E) as (doc & n & Ht & Hn).
    rewrite Ht. now apply (checkTilesFunc_sound_tile _ _ _ _ _ n).
  - now apply checkTilesFunc_other.
Qed.

Lemma checkTiles_all_visits (w : World) (checkDir dupDir : string)
    (lines : Visit -> list Line) :
  Forall (fun v => visit (checkTilesFunc w dupDir) v = (lines v, Val None))
         (visits checkDir (tree w checkDir)) ->
  checkTiles w checkDir dupDir =
  (flat_map lines (visits checkDir (tree w checkDir)), Val None).
Proof.
  intros H. unfold checkTiles.
  rewrite (Walk_visits _ _ _ (checkTilesFunc_neverSkips w dupDir)).
  rewrite (visitAll_all _ _ _ H). simpl. now rewrite app_nil_r.
Qed.

(** X11. When every visit of the check tree goes well (no traversal error,
    and every [.svg] path holds a document with an [svg] element), the walk
    visits the whole tree, at every depth and in walk order: [checkTiles]
    writes the lines of each tile one after the other, nothing for the other
    paths, no failure of the walk, and returns nil, however many diagnostics
    the tiles gave rise to. *)
Theorem X11_run_over_a_sound_tree :
  forall (w : World) (checkDir dupDir : string),
    Forall (soundVisit w) (visits checkDir (tree w checkDir)) ->
    checkTiles w checkDir dupDir =
    (flat_map (visitLines w dupDir) (visits checkDir (tree w checkDir)), Val None).
Proof.
  intros w checkDir dupDir H. apply checkTiles_all_visits.
  eapply Forall_impl; [|exact H]. intros v Hv. now apply soundVisit_lines.
Qed.

Lemma X11_witness :
  checkTiles twoTilesWorld "tiles" "ref" =
  ([Diag "tiles/a.svg" ERROR KeywordsMissing;
    Diag "tiles/sub/c.svg" ERROR KeywordsMissing], Val None).
Proof.
  refine (X11_run_over_a_sound_tree twoTilesWorld "tiles" "ref" _).
  repeat constructor; try discriminate;
    intros _; exists plainTile; eexists; split; reflexivity.
Defined.

(** X12. Paths without the extension [.svg] are passed over in silence: a
    check tree that is walked without error and holds no such path makes
    [checkTiles] write nothing and return nil; no file is opened. *)
Theorem X12_tree_without_tiles_is_silent :
  forall (w : World) (checkDir dupDir : string),
    Forall (fun v => verr v = None /\ String.eqb (Ext (vpath v)) ".svg" = false)
           (visits checkDir (tree w checkDir)) ->
    checkTiles w checkDir dupDir = ([], Val None).
Proof.
  intros w checkDir dupDir H.
  rewrite (checkTiles_all_visits w checkDir dupDir (fun _ => [])).
  - f_equal. clear H. induction (visits checkDir (tree w checkDir)) as [|v l IH];
      [reflexivity | exact IH].
  - eapply Forall_impl; [|exact H]. intros v [Hv Hext]. unfold visit. rewrite Hv.
    now apply checkTilesFunc_other.
Qed.

Lemma X12_witness : checkTiles notesWorld "docs" "ref" = ([], Val None).
Proof.
  refine (X12_tree_without_tiles_is_silent notesWorld "docs" "ref" _).
  repeat constructor.
Defined.

Lemma visitAll_panics (fn : WalkFunc) (pre post : list Visit) (v : Visit)
    (out o : list Line) :
  visitAll fn pre = (out, Val None) ->
  visit fn v = (o, Panic) ->
  visitAll fn (pre ++ v :: post) = (out ++ o, Panic).
Proof.
  intros Hpre Hv. rewrite (visitAll_after _ _ _ _ Hpre). cbn [visitAll].
  now rewrite Hv.
Qed.

(** X13. A file with the extension [.svg] that parses as XML but holds no
    [svg] element makes the program panic: [FindOne] returns nil and the
    attribute is selected on it.  In verbose mode the panic comes in the
    summary, before any check; otherwise the keyword check has written its
    line and the size check panics.  The panic goes through the walk:
    [checkTiles] does not return, the entries after that file are not
    visited and no failure of the walk is reported. *)
Theorem X13_document_without_svg_element_panics :
  forall (w : World) (checkDir dupDir : string) (pre post : list Visit) (v : Visit)
         (out : list Line) (doc : Node),
    visits checkDir (tree w checkDir) = pre ++ v :: post ->
    visitAll (checkTilesFunc w dupDir) pre = (out, Val None) ->
    verr v = None -> Ext (vpath v) = ".svg" ->
    tileOf w (vpath v) = Some doc -> FindOne doc "svg" = None ->
    let lines := traceLine w (vpath v) ++
                 (if verboseFlag w then [] else output (checkKeywords (vpath v) doc)) in
    visit (checkTilesFunc w dupDir) v = (lines, Panic) /\
    checkTiles w checkDir dupDir = (out ++ lines, Panic).
Proof.
  intros w checkDir dupDir pre post v out doc Hvs Hpre Hv Hext Htile Hn lines.
  assert (Hvisit : visit (checkTilesFunc w dupDir) v = (lines, Panic)).
  { destruct (tileOf_open_parse _ _ _ Htile) as (reader & Hopen & Hparse).
    unfold visit, checkTilesFunc, lines, traceLine. rewrite Hv, Hext.
    cbn [String.eqb Ascii.eqb Bool.eqb negb]. rewrite bind_when_print.
    rewrite Hopen, Hparse, bind_ret_l.
    destruct (verboseFlag w); cbn [when].
    - unfold printSvg. rewrite Hn. reflexivity.
    - rewrite bind_ret_l, (bind_tt _ _ (checkKeywords_result (vpath v) doc)).
      unfold checkSize. rewrite Hn. cbn. now rewrite !app_nil_r. }
  split; [exact Hvisit|]. unfold checkTiles.
  rewrite (Walk_visits _ _ _ (checkTilesFunc_neverSkips w dupDir)), Hvs.
  now rewrite (visitAll_panics _ _ _ _ _ _ Hpre Hvisit).
Qed.

Lemma X13_witness :
  checkTiles pageWorld "tiles" "ref" =
  ([Diag "tiles/a.svg" ERROR KeywordsMissing], Panic).
Proof.
  exact (proj2 (X13_document_without_svg_element_panics pageWorld "tiles" "ref"
                  [{| vpath := "tiles"; vinfo := Some {| IsDir := true |};
                      verr := None |}]
                  [{| vpath := "tiles/b.svg"; vinfo := Some {| IsDir := false |};
                      verr := None |}]
                  {| vpath := "tiles/a.svg"; vinfo := Some {| IsDir := false |};
                     verr := None |}
                  [] htmlPage eq_refl eq_refl eq_refl eq_refl eq_refl eq_refl)).
Defined.


(** ** The [-v] flag *)

Lemma withoutVerbose_app (a b : list Line) :
  withoutVerbose (a ++ b) = withoutVerbose a ++ withoutVerbose b.
Proof. apply filter_app. Qed.

Lemma withoutVerbose_id (ls : list Line) :
  (forall l, In l ls -> verboseOnly l = false) -> withoutVerbose ls = ls.
Proof.
  induction ls as [|a ls IH]; intros H; [reflexivity|].
  unfold withoutVerbose. cbn [filter]. rewrite (H a (or_introl eq_refl)). cbn [negb].
  f_equal. apply IH. intros l Hl. apply H. now right.
Qed.

Lemma printSvg_output (doc n : Node) :
  FindOne doc "svg" = Some n -> exists wd h v, output (printSvg doc) = [SvgInfo wd h v].
Proof.
  intros Hn. unfold printSvg. rewrite Hn.
  destruct (SelectAttr_some n "width") as [a ->].
  destruct (SelectAttr_some n "height") as [b ->].
  destruct (SelectAttr_some n "viewBox") as [c ->].
  now exists a, b, c.
Qed.

Lemma when_print_output (b : bool) (l l' : Line) :
  In l' (output (when b (print l))) -> l' = l.
Proof. destruct b; simpl; [intros [<-|[]]; reflexivity | intros []]. Qed.

(** No check writes a line of the verbose kind. *)
Lemma checkKeywords_quiet (path : string) (doc : Node) (l : Line) :
  In l (output (checkKeywords path doc)) -> verboseOnly l = false.
Proof. unfold checkKeywords. intros H. now apply when_print_output in H as ->. Qed.

Lemma checkSize_quiet (path : string) (doc n : Node) (l : Line) :
  FindOne doc "svg" = Some n ->
  In l (output (checkSize path doc)) -> verboseOnly l = false.
Proof.
  intros Hn. destruct (SelectAttr_some n "width") as [ws Hw].
  destruct (SelectAttr_some n "height") as [hs Hh].
  rewrite (checkSize_svg _ _ _ _ _ Hn Hw Hh). unfold output at 1. cbn [fst].
  rewrite !in_app_iff. intros [H|[H|H]].
  - now apply toFloat_output in H as [f ->].
  - now apply toFloat_output in H as [f ->].
  - unfold sizeErrors in H. apply in_app_or in H as [H|H];
      match type of H with
      | In _ (if ?c then _ else _) => destruct c
      end; try destruct H as [<-|[]]; try destruct H; reflexivity.
Qed.

Lemma checkUnits_quiet (path : string) (doc n : Node) (l : Line) :
  FindOne doc "svg" = Some n ->
  In l (output (checkUnits path doc)) -> verboseOnly l = false.
Proof.
  intros Hn. destruct (SelectAttr_some n "width") as [ws Hw].
  destruct (SelectAttr_some n "height") as [hs Hh].
  rewrite (checkUnits_svg _ _ _ _ _ Hn Hw Hh). unfold output. cbn [fst].
  unfold unitWarnings. intros H. apply in_app_or in H as [H|H];
    match type of H with
    | In _ (if ?c then _ else _) => destruct c
    end; try destruct H as [<-|[]]; try destruct H; reflexivity.
Qed.

Lemma checkIdentifier_quiet (path : string) (doc : Node) (l : Line) :
  In l (output (checkIdentifier path doc)) -> verboseOnly l = false.
Proof.
  unfold checkIdentifier. destruct (FindOne doc "dc:identifier"); simpl;
    [intros [] | intros [<-|[]]; reflexivity].
Qed.

Lemma checkKeywordSpelling_quiet (w : World) (path : string) (doc : Node) (l : Line) :
  In l (output (checkKeywordSpelling w path doc)) -> verboseOnly l = false.
Proof.
  unfold checkKeywordSpelling. destruct (NewSpeller w); [intros [<-|[]]; reflexivity|].
  destruct (length (Find doc "rdf:li") =? 0)%nat; [intros []|].
  intros H. now apply when_print_output in H as ->.
Qed.

Lemma checkTspanSpelling_quiet (w : World) (path : string) (doc : Node) (l : Line) :
  In l (output (checkTspanSpelling w path doc)) -> verboseOnly l = false.
Proof.
  unfold checkTspanSpelling. destruct (NewSpeller w); [intros [<-|[]]; reflexivity|].
  destruct (length (Find doc "svg:tspan") =? 0)%nat; [intros []|].
  intros H. now apply when_print_output in H as ->.
Qed.

Lemma duplicatesOf_quiet (w : World) (checkPath path : string)
    (info : option FileInfo) (err : option error) (l : Line) :
  In l (output (duplicatesOf w checkPath path info err)) -> verboseOnly l = false.
Proof.
  unfold duplicatesOf. destruct err as [e|].
  - simpl. intros [<-|[]]. reflexivity.
  - destruct (String.eqb (Ext path) ".svg") eqn:E.
    + apply String.eqb_eq in E. rewrite (checkDuplicatesFunc_svg _ _ _ _ _ _ _ E).
      unfold output at 1. cbn [fst]. rewrite matchLines_In.
      intros [[-> H]|[H|[[-> H]|[H|[-> H]]]]]; try reflexivity.
      * apply getFileSize_output in H as [e ->]. reflexivity.
      * apply makeHash_output in H as [f ->]. reflexivity.
    + rewrite (checkDuplicatesFunc_other _ _ _ _ _ _ _ E). intros [].
Qed.

Lemma checkDuplicates_quiet (w : World) (checkPath dupDir : string) (node : Node)
    (l : Line) :
  In l (output (checkDuplicates w checkPath dupDir node)) -> verboseOnly l = false.
Proof.
  destruct (checkDuplicates_eta w checkPath dupDir node) as (r & _ & ->).
  unfold output at 1. cbn [fst]. rewrite !in_app_iff. intros [H|[H|[H|H]]].
  - now apply makeHash_output in H as [f ->].
  - now apply getFileSize_output in H as [e ->].
  - apply visitAll_output in H as (v & _ & H). revert H. apply duplicatesOf_quiet.
  - destruct r as [e|]; [destruct H as [<-|[]]; reflexivity | destruct H].
Qed.

(** The seven checks of a tile do not look at the flag. *)
Lemma checks_quiet (w : World) (dupDir path : string) (doc n : Node) :
  FindOne doc "svg" = Some n ->
  tileLines (setVerbose false w) dupDir path doc =
  withoutVerbose (tileLines (setVerbose true w) dupDir path doc).
Proof.
  intros Hn. unfold tileLines, traceLine. cbn [verboseFlag setVerbose].
  destruct (printSvg_output doc n Hn) as (wd & h & v & ->).
  cbn [app]. unfold withoutVerbose at 1. cbn [filter verboseOnly negb].
  symmetry. apply withoutVerbose_id. intros l. rewrite !in_app_iff.
  intros [H|[H|[H|[H|[H|[H|H]]]]]].
  - revert H. apply checkKeywords_quiet.
  - revert H. now apply (checkSize_quiet _ _ n).
  - revert H. now apply (checkUnits_quiet _ _ n).
  - revert H. apply checkIdentifier_quiet.
  - revert H. apply checkKeywordSpelling_quiet.
  - revert H. apply checkTspanSpelling_quiet.
  - revert H. apply checkDuplicates_quiet.
Qed.

Lemma visit_withoutVerbose (w : World) (dupDir : string) (v : Visit) :
  hasSvgElement w v ->
  visit (checkTilesFunc (setVerbose false w) dupDir) v =
  (withoutVerbose (output (visit (checkTilesFunc (setVerbose true w) dupDir) v)),
   result (visit (checkTilesFunc (setVerbose true w) dupDir) v)).
Proof.
  intros Hsvg. unfold visit. destruct (verr v) as [e|]; [reflexivity|].
  destruct (String.eqb (Ext (vpath v)) ".svg") eqn:E.
  2: { now rewrite !checkTilesFunc_other. }
  apply String.eqb_eq in E. specialize (Hsvg E).
  destruct (data (file w (vpath v))) as [msg|msg|b] eqn:D.
  - rewrite !(checkTilesFunc_open_fails _ _ _ msg _ E) by exact D. reflexivity.
  - rewrite !(checkTilesFunc_parse_fails _ _ _ msg _ E) by (left; exact D).
    reflexivity.
  - destruct (xmlParse w b) as [msg|doc] eqn:P.
    + rewrite !(checkTilesFunc_parse_fails _ _ _ msg _ E)
        by (right; exists b; split; [exact D | exact P]).
      reflexivity.
    + assert (Ht : tileOf w (vpath v) = Some doc)
        by (unfold tileOf; now rewrite D, P).
      destruct (FindOne doc "svg") as [n|] eqn:Hn; [|now destruct (Hsvg doc Ht)].
      rewrite (checkTilesFunc_sound_tile (setVerbose false w) _ _ _ doc n E Ht Hn).
      rewrite (checkTilesFunc_sound_tile (setVerbose true w) _ _ _ doc n E Ht Hn).
      unfold output, result. cbn [fst snd]. now rewrite (checks_quiet _ _ _ _ n Hn).
Qed.

Lemma visitAll_withoutVerbose (w : World) (dupDir : string) (vs : list Visit) :
  Forall (hasSvgElement w) vs ->
  visitAll (checkTilesFunc (setVerbose false w) dupDir) vs =
  (withoutVerbose (output (visitAll (checkTilesFunc (setVerbose true w) dupDir) vs)),
   result (visitAll (checkTilesFunc (setVerbose true w) dupDir) vs)).
Proof.
  induction 1 as [|v vs Hv _ IH]; [reflexivity|]. cbn [visitAll].
  rewrite (visit_withoutVerbose _ _ _ Hv), IH.
  destruct (visit (checkTilesFunc (setVerbose true w) dupDir) v) as [o [[e|]|]];
    cbn; [now rewrite !app_nil_r | | reflexivity].
  destruct (visitAll (checkTilesFunc (setVerbose true w) dupDir) vs) as [o' r'].
  cbn. unfold withoutVerbose. now rewrite filter_app.
Qed.

(** X14. The flag [-v] only adds lines.  When every tile the walk can get
    to has an [svg] element, the report of a run without the flag is the
    report of the run with it, less the trace and summary lines, and both
    runs return the same value: the flag changes no diagnostic and no
    error.  (A document without an [svg] element is excluded: there the two
    runs panic at different places.) *)
Theorem X14_verbose_flag_only_adds_lines :
  forall (w : World) (checkDir dupDir : string),
    Forall (hasSvgElement w) (visits checkDir (tree w checkDir)) ->
    checkTiles (setVerbose false w) checkDir dupDir =
    (withoutVerbose (output (checkTiles (setVerbose true w) checkDir dupDir)),
     result (checkTiles (setVerbose true w) checkDir dupDir)).
Proof.
  intros w checkDir dupDir H. unfold checkTiles.
  rewrite !(Walk_visits _ _ _ (checkTilesFunc_neverSkips _ dupDir)).
  cbn [tree setVerbose]. rewrite (visitAll_withoutVerbose _ _ _ H).
  destruct (visitAll (checkTilesFunc (setVerbose true w) dupDir)
              (visits checkDir (tree w checkDir))) as [o [[e|]|]];
    cbn; unfold withoutVerbose; rewrite ?filter_app, ?app_nil_r; reflexivity.
Qed.

Lemma X14_witness :
  output (checkTiles (setVerbose true twoTilesWorld) "tiles" "ref") =
  [Trace "tiles/a.svg"; SvgInfo "100" "100" "";
   Diag "tiles/a.svg" ERROR KeywordsMissing;
   Trace "tiles/sub/c.svg"; SvgInfo "100" "100" "";
   Diag "tiles/sub/c.svg" ERROR KeywordsMissing] /\
  checkTiles (setVerbose false twoTilesWorld) "tiles" "ref" =
  ([Diag "tiles/a.svg" ERROR KeywordsMissing;
    Diag "tiles/sub/c.svg" ERROR KeywordsMissing], Val None).
Proof.
  split; [reflexivity|].
  refine (X14_verbose_flag_only_adds_lines twoTilesWorld "tiles" "ref" _).
  repeat constructor; intros _ doc Hdoc; injection Hdoc as <-; discriminate.
Defined.


(** ** The schema-bound variant never panics *)

Lemma visitAll_returns (fn : WalkFunc) (vs : list Visit) :
  (forall v, exists r, result (visit fn v) = Val r) ->
  exists r, result (visitAll fn vs) = Val r.
Proof.
  intros Hfn. induction vs as [|v vs [r IH]]; cbn [visitAll]; [now exists None|].
  destruct (Hfn v) as [rv Hv]. rewrite (result_bind _ _ _ Hv).
  destruct rv as [e|]; [now exists (Some e) | now exists r].
Qed.

Lemma Decode_checkSize_result (path : string) (svg : Decode.Svg) :
  result (Decode.checkSize path svg) = Val tt.
Proof.
  unfold Decode.checkSize.
  rewrite (result_bind _ _ _ (toFloat_result _)), (result_bind _ _ _ (toFloat_result _)).
  rewrite (result_bind _ _ _ (when_print_result _ _)). apply when_print_result.
Qed.

Lemma Decode_checkUnits_result (path : string) (svg : Decode.Svg) :
  result (Decode.checkUnits path svg) = Val tt.
Proof.
  unfold Decode.checkUnits.
  rewrite (result_bind _ _ _ (when_print_result _ _)). apply when_print_result.
Qed.

Lemma Decode_checkKeywordSpelling_result (w : World) (path : string) (svg : Decode.Svg) :
  result (Decode.checkKeywordSpelling w path svg) = Val tt.
Proof.
  unfold Decode.checkKeywordSpelling. destruct (NewSpeller w); [reflexivity|].
  destruct (length (Decode.keywordsOf svg) =? 0)%nat; [reflexivity|].
  apply when_print_result.
Qed.

Lemma Decode_checkTilesFunc_returns (w : World)
    (xmlDecode : string -> string + Decode.Svg) (v : Visit) :
  exists r, result (visit (Decode.checkTilesFunc w xmlDecode) v) = Val r.
Proof.
  unfold visit, Decode.checkTilesFunc. destruct (verr v) as [e|];
    [eexists; reflexivity|].
  destruct (negb (String.eqb (Ext (vpath v)) ".svg")); [eexists; reflexivity|].
  rewrite bind_when_print. unfold result at 1. cbn [snd].
  destruct (osOpen w (vpath v)) as [e|reader]; [eexists; reflexivity|].
  assert (Hp : exists p, result (Decode.parseSvg xmlDecode reader) = Val p).
  { unfold Decode.parseSvg.
    match goal with
    | |- context [match ?x with inl _ => _ | inr _ => _ end] => destruct x
    end; eexists; reflexivity. }
  destruct Hp as [p Hp]. rewrite (result_bind _ _ _ Hp).
  destruct p as [e|svg]; [eexists; reflexivity|].
  assert (Hv : result (when (verboseFlag w) (Decode.printSvg svg)) = Val tt)
    by (destruct (verboseFlag w); reflexivity).
  rewrite (result_bind _ _ _ Hv).
  unfold Decode.checkKeywords. rewrite (result_bind _ _ _ (when_print_result _ _)).
  rewrite (result_bind _ _ _ (Decode_checkSize_result _ _)).
  rewrite (result_bind _ _ _ (Decode_checkUnits_result _ _)).
  unfold Decode.checkIdentifier. rewrite (result_bind _ _ _ (when_print_result _ _)).
  rewrite (result_bind _ _ _ (Decode_checkKeywordSpelling_result _ _ _)).
  eexists; reflexivity.
Qed.

(** X15. The schema-bound variant never panics: whatever the check tree,
    the files, the decoder and the speller do, its [checkTiles] returns (nil
    or the error that ended the walk).  A document without an [svg] element,
    on which the xmlquery variant dereferences nil, decodes into a structure
    with empty fields and is checked like any other. *)
Theorem X15_schema_bound_variant_never_panics :
  forall (w : World) (xmlDecode : string -> string + Decode.Svg)
         (checkDir dupDir : string),
    exists r, result (Decode.checkTiles w xmlDecode checkDir dupDir) = Val r.
Proof.
  intros w xmlDecode checkDir dupDir. unfold Decode.checkTiles.
  rewrite (Walk_visits _ _ _ (Decode_checkTilesFunc_neverSkips w xmlDecode)).
  destruct (visitAll_returns (Decode.checkTilesFunc w xmlDecode)
              (visits checkDir (tree w checkDir))
              (Decode_checkTilesFunc_returns w xmlDecode)) as [r Hr].
  rewrite (result_bind _ _ _ Hr). destruct r as [e|]; eexists; reflexivity.
Qed.


(** ** The two variants side by side *)

(** X16. The checks the two variants share decide alike.  When the decoded
    structure holds what the tree holds (the width and height of the [svg]
    element, the texts of the keyword items), the keyword-presence check,
    the size check, the unit check and the keyword-spelling check of the
    xmlquery variant write the same diagnostics as those of the schema-bound
    variant (which punctuates its lines differently). *)
Theorem X16_shared_checks_agree :
  forall (w : World) (path : string) (doc : Node) (svg : Decode.Svg),
    mirrors doc svg ->
    checkKeywords path doc = Decode.checkKeywords path svg /\
    checkSize path doc = Decode.checkSize path svg /\
    checkUnits path doc = Decode.checkUnits path svg /\
    checkKeywordSpelling w path doc = Decode.checkKeywordSpelling w path svg.
Proof.
  intros w path doc svg (n & Hn & Hw & Hh & Hk).
  assert (Hlen : length (Find doc "rdf:li") = length (Decode.keywordsOf svg))
    by (rewrite <- Hk; symmetry; apply length_map).
  repeat split.
  - unfold checkKeywords, Decode.checkKeywords. now rewrite Hlen.
  - unfold checkSize, Decode.checkSize. rewrite Hn, Hw, bind_ret_l.
    rewrite !(bind_val _ _ _ _ (toFloat_eta (Decode.Width svg))).
    now rewrite Hh, bind_ret_l.
  - unfold checkUnits, Decode.checkUnits. now rewrite Hn, Hw, bind_ret_l, Hh, bind_ret_l.
  - unfold checkKeywordSpelling, Decode.checkKeywordSpelling.
    now rewrite Hlen, innerTexts_map, Hk.
Qed.

Lemma X16_witness :
  checkKeywordSpelling wallWorld "wall.svg" keywordsTile =
  Decode.checkKeywordSpelling wallWorld "wall.svg" keywordsSvg.
Proof.
  refine (proj2 (proj2 (proj2
    (X16_shared_checks_agree wallWorld "wall.svg" keywordsTile keywordsSvg _)))).
  eexists. repeat split; reflexivity.
Defined.

(** ** The command *)

Lemma usage_returns (c : CommandLine) : osArgs c <> [] -> snd (usage c) = Val tt.
Proof. unfold usage. destruct (osArgs c); [now intros [] | reflexivity]. Qed.

(** X17. The exit status of the command says nothing about the tiles.  It
    is 1 exactly when [-?] is not given and fewer than two arguments are
    left; the process panics exactly when the scan does; in every other
    case the status is 0: with [-?] (nothing is scanned then, even with two
    directories given), and after every scan that returns, whatever
    diagnostics it wrote and even when the walk ended in an error. *)
Theorem X17_exit_status :
  forall (w : World) (c : CommandLine),
    osArgs c <> [] ->
    (exitStatus w c = ExitStatus 1 <->
     helpFlag c = false /\ (length (Args c) < 2)%nat) /\
    (exitStatus w c = ExitPanic <->
     helpFlag c = false /\
     exists checkDir dupDir rest,
       Args c = checkDir :: dupDir :: rest /\
       result (checkTiles w checkDir dupDir) = Panic) /\
    (exitStatus w c <> ExitStatus 1 -> exitStatus w c <> ExitPanic ->
     exitStatus w c = ExitStatus 0) /\
    (helpFlag c = true -> main w c = (fst (usage c), ExitStatus 0)).
Proof.
  intros w c Hargs. pose proof (usage_returns c Hargs) as Hu.
  unfold exitStatus, main. rewrite Hu.
  assert (Hsplit : forall (P1 Q1 P2 Q2 R S : Prop),
             (P1 -> Q1) -> (Q1 -> P1) -> (P2 -> Q2) -> (Q2 -> P2) -> R -> S ->
             (P1 <-> Q1) /\ (P2 <-> Q2) /\ R /\ S) by tauto.
  destruct (helpFlag c); cbn [snd exitWith].
  { apply Hsplit; try discriminate; try reflexivity; try tauto;
      intros [H _]; discriminate H. }
  destruct (Args c) as [|checkDir [|dupDir rest]]; cbn [snd exitWith length].
  - apply Hsplit; try discriminate; try tauto.
    + intros _. split; [reflexivity | lia].
    + intros (_ & ? & ? & ? & H & _). discriminate.
  - apply Hsplit; try discriminate; try tauto.
    + intros _. split; [reflexivity | lia].
    + intros (_ & ? & ? & ? & H & _). discriminate.
  - destruct (result (checkTiles w checkDir dupDir)) as [r|] eqn:Hr; cbn [exitWith].
    + apply Hsplit; try discriminate; try tauto.
      * intros [_ H]. lia.
      * intros (_ & a & b & l & H & Hp). injection H as <- <- <-.
        rewrite Hr in Hp. discriminate.
    + apply Hsplit; try discriminate; try tauto.
      * intros [_ H]. lia.
      * intros _. split; [reflexivity|]. exists checkDir, dupDir, rest. now split.
Qed.

Lemma X17_witness :
  exitStatus tileWorld {| osArgs := ["chktiles"; "tiles"; "ref"]; helpFlag := false;
                          Args := ["tiles"; "ref"] |} = ExitStatus 0.
Proof.
  refine (proj1 (proj2 (proj2 (X17_exit_status tileWorld
            {| osArgs := ["chktiles"; "tiles"; "ref"]; helpFlag := false;
               Args := ["tiles"; "ref"] |} _))) _ _); discriminate.
Defined.

(** X18. A check directory that cannot be accessed (it does not exist, say)
    is reported twice, by the function of the walk and by [checkTiles], and
    the command still exits with status 0; the duplicate directory and any
    further argument are not looked at. *)
Theorem X18_missing_check_directory_exits_0 :
  forall (w : World) (c : CommandLine) (checkDir dupDir msg : string)
         (rest : list string),
    helpFlag c = false -> verboseFlag w = false ->
    Args c = checkDir :: dupDir :: rest ->
    tree w checkDir = TBroken msg ->
    main w c =
    ([Report (OpError "checkTiles" (UnableAccessPath checkDir (Failure msg)));
      Report (OpError "checkTiles" (UnableWalk checkDir (Failure msg)))],
     ExitStatus 0).
Proof.
  intros w c checkDir dupDir msg rest Hhelp Hverbose Hargs Htree.
  unfold main. rewrite Hhelp, Hverbose, Hargs.
  assert (Hrun : checkTiles w checkDir dupDir =
                 ([OpError "checkTiles" (UnableAccessPath checkDir (Failure msg));
                   OpError "checkTiles" (UnableWalk checkDir (Failure msg))],
                  Val (Some (Failure msg)))).
  { apply (checkTiles_stops w checkDir dupDir []
             [] {| vpath := checkDir; vinfo := None; verr := Some (Failure msg) |}
             [] [OpError "checkTiles" (UnableAccessPath checkDir (Failure msg))]).
    - now rewrite Htree.
    - reflexivity.
    - reflexivity. }
  now rewrite Hrun.
Qed.

Lemma X18_witness :
  main missingWorld {| osArgs := ["chktiles"; "nowhere"; "ref"; "more"];
                       helpFlag := false; Args := ["nowhere"; "ref"; "more"] |} =
  ([Report (OpError "checkTiles"
              (UnableAccessPath "nowhere" (Failure "no such file or directory")));
    Report (OpError "checkTiles"
              (UnableWalk "nowhere" (Failure "no such file or directory")))],
   ExitStatus 0).
Proof.
  exact (X18_missing_check_directory_exits_0 missingWorld
           {| osArgs := ["chktiles"; "nowhere"; "ref"; "more"];
              helpFlag := false; Args := ["nowhere"; "ref"; "more"] |}
           "nowhere" "ref" "no such file or directory" ["more"]
           eq_refl eq_refl eq_refl eq_refl).
Defined.
